(** * Python Paste Formatter: fence location, block merge and paste handling

    A shallow embedding of [src/main.ts].  JavaScript strings are modelled
    as [string] whose characters stand for code units below 256; line
    numbers and columns are [Z] (the source's [number], restricted to
    integers); the host editor is a text buffer with a selection. *)

From Stdlib Require Import String Ascii List ZArith Lia Bool DecimalString.
From Stdlib Require Strings.Byte.
Import ListNotations.
Open Scope string_scope.
Open Scope nat_scope.

(** ** Strings as the source uses them *)

Module Str.

(** [s.slice(0, n)] and [s.slice(n)] on code units. *)
Fixpoint take (n : nat) (s : string) : string :=
  match n, s with
  | S n', String c r => String c (take n' r)
  | _, _ => ""
  end.

Fixpoint drop (n : nat) (s : string) : string :=
  match n, s with
  | S n', String _ r => drop n' r
  | _, _ => s
  end.

(** [s.slice(a, b)]; empty when [b <= a]. *)
Definition slice (a b : nat) (s : string) : string :=
  take (b - a) (drop a s).

(** [s.startsWith(p)]. *)
Definition startsWith (p s : string) : bool := String.prefix p s.

(** JavaScript white space (the class of [\s] and of [trim]) among the
    code units below 256: TAB, LF, VT, FF, CR, SPACE and NBSP. *)
Definition isSpace (c : ascii) : bool :=
  let n := nat_of_ascii c in
  ((9 <=? n) && (n <=? 13)) || (n =? 32) || (n =? 160).

Fixpoint trimStart (s : string) : string :=
  match s with
  | String c r => if isSpace c then trimStart r else s
  | "" => ""
  end.

Fixpoint trimEnd (s : string) : string :=
  match s with
  | "" => ""
  | String c r =>
      match trimEnd r with
      | "" => if isSpace c then "" else String c ""
      | r' => String c r'
      end
  end.

(** [s.trim()]. *)
Definition trim (s : string) : string := trimEnd (trimStart s).

(** [toLowerCase] on code units below 256: A-Z and the Latin-1 capitals. *)
Definition lowerChar (c : ascii) : ascii :=
  let n := nat_of_ascii c in
  if ((65 <=? n) && (n <=? 90))
     || ((192 <=? n) && (n <=? 222) && negb (n =? 215))
  then ascii_of_nat (n + 32) else c.

Fixpoint toLowerCase (s : string) : string :=
  match s with
  | "" => ""
  | String c r => String (lowerChar c) (toLowerCase r)
  end.

(** The longest leading run of characters satisfying [p], and the rest. *)
Fixpoint span (p : ascii -> bool) (s : string) : string * string :=
  match s with
  | String c r =>
      if p c then let (a, b) := span p r in (String c a, b) else ("", s)
  | "" => ("", "")
  end.

(** The lines of a text, split at LF; a text always has at least one line. *)
Fixpoint splitLines (s : string) : list string :=
  match s with
  | "" => [""]
  | String c r =>
      if Ascii.eqb c "010"%char then "" :: splitLines r
      else match splitLines r with
           | x :: xs => String c x :: xs
           | [] => [String c ""]
           end
  end.

(** [String(n)] for an integer of magnitude below 10^21, which JavaScript
    writes in plain decimal digits. *)
Definition ofZ (n : Z) : string := NilEmpty.string_of_int (Z.to_int n).

End Str.

(** ** The host editor

    The editor is the host's object, not code of the plugin: it is modelled
    as the buffer text together with the selection's anchor and head.
    Positions outside the text are clamped when they are turned into
    offsets, as the host does; [getLine] on a line that does not exist
    raises, which the model renders as [None]. *)

Record EditorPosition : Set := { line : Z; ch : Z }.

Record Editor : Set :=
  { value : string; anchor : EditorPosition; head : EditorPosition }.

Inductive CursorSide : Set := From | To | Head | Anchor.

Definition posLeb (p q : EditorPosition) : bool :=
  ((line p <? line q) || ((line p =? line q) && (ch p <=? ch q)))%Z.

(** [editor.getCursor(side)]; [editor.getCursor()] is [getCursor ed Head]. *)
Definition getCursor (ed : Editor) (side : CursorSide) : EditorPosition :=
  match side with
  | Head => head ed
  | Anchor => anchor ed
  | From => if posLeb (anchor ed) (head ed) then anchor ed else head ed
  | To => if posLeb (anchor ed) (head ed) then head ed else anchor ed
  end.

Definition lines (ed : Editor) : list string := Str.splitLines (value ed).

Definition lineCount (ed : Editor) : Z := Z.of_nat (List.length (lines ed)).

Definition getLine (ed : Editor) (i : Z) : option string :=
  if (i <? 0)%Z then None else nth_error (lines ed) (Z.to_nat i).

(** Offset of line [l], column [c] in the text whose lines are [ls]: the
    column is clamped to the line, a line past the end to the end of the
    text. *)
Fixpoint offsetAt (ls : list string) (l c : nat) : nat :=
  match ls with
  | [] => 0
  | x :: rest =>
      match l with
      | 0 => Nat.min c (String.length x)
      | S l' =>
          match rest with
          | [] => String.length x
          | _ :: _ => S (String.length x + offsetAt rest l' c)
          end
      end
  end.

Definition posToOffset (ed : Editor) (p : EditorPosition) : nat :=
  if (line p <? 0)%Z then 0
  else offsetAt (lines ed) (Z.to_nat (line p)) (Z.to_nat (ch p)).

(** [editor.getRange(from, to)]. *)
Definition getRange (ed : Editor) (from to : EditorPosition) : string :=
  Str.slice (posToOffset ed from) (posToOffset ed to) (value ed).

(** [editor.replaceRange(text, from, to)]: the text of the buffer afterwards. *)
Definition replaceRange (ed : Editor) (text : string)
    (from to : EditorPosition) : string :=
  Str.take (posToOffset ed from) (value ed) ++ text
    ++ Str.drop (posToOffset ed to) (value ed).

(** [editor.replaceSelection(text)]: the text of the buffer afterwards. *)
Definition replaceSelection (ed : Editor) (text : string) : string :=
  replaceRange ed text (getCursor ed From) (getCursor ed To).

(** ** Fences *)

Record FenceInfo : Set :=
  { inside : bool; lang : option string; startLine : Z; endLine : Z }.

(** The value returned when no opening or no closing delimiter is found. *)
Definition noFence : FenceInfo :=
  {| inside := false; lang := None; startLine := -1; endLine := -1 |}.

Definition isPythonLang (lang : option string) : bool :=
  match lang with
  | None => false
  | Some "" => false
  | Some lang =>
      let l := Str.toLowerCase lang in
      String.eqb l "python" || String.eqb l "py"
      || String.eqb l "python3" || String.eqb l "py3"
  end.

Definition isBacktick (c : ascii) : bool := Ascii.eqb c "`"%char.

(** The class [[^\s`{]] of the tag. *)
Definition isTagChar (c : ascii) : bool :=
  negb (Str.isSpace c || isBacktick c || Ascii.eqb c "{"%char).

(** [fenceLine.trim().match(/^`{3,}\s*([^\s`{]+)?/)]: every quantifier is
    greedy and nothing after it can fail, so the match takes all leading
    backticks, all white space after them, and the longest tag. *)
Definition extractFenceLang (fenceLine : string) : option string :=
  let (ticks, rest) := Str.span isBacktick (Str.trim fenceLine) in
  if String.length ticks <? 3 then None
  else
    let (_, rest') := Str.span Str.isSpace rest in
    let (tag, _) := Str.span isTagChar rest' in
    match tag with
    | "" => None
    | _ => Some tag
    end.

(** The test of both loops: [line.startsWith('```')]. *)
Definition isFence (l : string) : bool := Str.startsWith "```" l.

(** [for (let i = pos.line; i >= 0; i--)]: the nearest delimiter at or
    before line [i], or [-1]. *)
Fixpoint scanOpen (ed : Editor) (i : nat) : option Z :=
  match getLine ed (Z.of_nat i) with
  | None => None
  | Some l =>
      if isFence l then Some (Z.of_nat i)
      else match i with
           | 0 => Some (-1)%Z
           | S i' => scanOpen ed i'
           end
  end.

(** [for (let j = open + 1; j < total; j++)], with [n] the lines left. *)
Fixpoint scanClose (ed : Editor) (j : Z) (n : nat) : option Z :=
  match n with
  | 0 => Some (-1)%Z
  | S n' =>
      match getLine ed j with
      | None => None
      | Some l => if isFence l then Some j else scanClose ed (j + 1) n'
      end
  end.

Definition findFenceInfo (ed : Editor) (pos : EditorPosition)
    : option FenceInfo :=
  let total := lineCount ed in
  match (if (line pos <? 0)%Z then Some (-1)%Z
         else scanOpen ed (Z.to_nat (line pos))) with
  | None => None
  | Some open =>
      if (open =? -1)%Z then Some noFence
      else
        match scanClose ed (open + 1) (Z.to_nat (total - (open + 1))) with
        | None => None
        | Some close =>
            if (close =? -1)%Z then Some noFence
            else
              match getLine ed open with
              | None => None
              | Some lo =>
                  Some {| inside := ((open <? line pos) && (line pos <? close))%Z;
                          lang := extractFenceLang lo;
                          startLine := open;
                          endLine := close |}
              end
        end
  end.

Definition blockStart (info : FenceInfo) : EditorPosition :=
  {| line := startLine info + 1; ch := 0 |}.

Definition blockEnd (info : FenceInfo) : EditorPosition :=
  {| line := endLine info; ch := 0 |}.

Definition getBlockText (ed : Editor) (info : FenceInfo) : string :=
  getRange ed (blockStart info) (blockEnd info).

Definition safeFrom (ed : Editor) (info : FenceInfo) : EditorPosition :=
  let selFrom := getCursor ed From in
  if (line selFrom <=? startLine info)%Z then blockStart info else selFrom.

Definition safeTo (ed : Editor) (info : FenceInfo) : EditorPosition :=
  let selTo := getCursor ed To in
  if (line selTo >=? endLine info)%Z then blockEnd info else selTo.

Definition mergePasteIntoBlock (ed : Editor) (info : FenceInfo)
    (pasted : string) : string :=
  let left := getRange ed (blockStart info) (safeFrom ed info) in
  let right := getRange ed (safeTo ed info) (blockEnd info) in
  left ++ pasted ++ right.

(** [replaceBlock]: the text of the buffer afterwards. *)
Definition replaceBlock (ed : Editor) (info : FenceInfo) (newCode : string)
    : string :=
  replaceRange ed newCode (blockStart info) (blockEnd info).

(** Buffers are written with [nl] between lines. *)
Definition nl : string := String "010" "".

Definition cursorAt (text : string) (l c : Z) : Editor :=
  {| value := text; anchor := {| line := l; ch := c |};
     head := {| line := l; ch := c |} |}.

Definition twoFences : string :=
  "```python" ++ nl ++ "x = 1" ++ nl ++ "```" ++ nl ++ "prose" ++ nl
  ++ "```py" ++ nl ++ "y = 2" ++ nl ++ "```".


Definition proseThenFence : string :=
  "abc" ++ nl ++ "```python" ++ nl ++ "x = 1" ++ nl ++ "```".

Definition indentedFence : string :=
  "  ```python" ++ nl ++ "x = 1" ++ nl ++ "  ```".

Definition select (text : string) (a h : EditorPosition) : Editor :=
  {| value := text; anchor := a; head := h |}.

(** ** Delimiter lines, as the two loops see them *)

Definition fenceLine (ed : Editor) (i : Z) : bool :=
  match getLine ed i with
  | Some l => isFence l
  | None => false
  end.

(** [o] is the nearest delimiter line at or before line [p]. *)
Definition openAt (ed : Editor) (p o : Z) : Prop :=
  (0 <= o <= p)%Z /\ fenceLine ed o = true
  /\ forall k, (o < k <= p)%Z -> fenceLine ed k = false.

(** [c] is the first delimiter line after line [o]. *)
Definition closeAt (ed : Editor) (o c : Z) : Prop :=
  (o < c)%Z /\ fenceLine ed c = true
  /\ forall k, (o < k < c)%Z -> fenceLine ed k = false.

Definition noneUpTo (ed : Editor) (p : Z) : Prop :=
  forall k, (k <= p)%Z -> fenceLine ed k = false.

Definition noneAfter (ed : Editor) (o : Z) : Prop :=
  forall k, (o < k)%Z -> fenceLine ed k = false.

(** Prefixes and suffixes of a text, by length. *)
Definition isPrefixOf (a s : string) : Prop := exists n, a = Str.take n s.

Definition isSuffixOf (a s : string) : Prop := exists n, a = Str.drop n s.

(** What the two scans of [findFenceInfo] arrive at for a cursor on line
    [p]: no delimiter at or before [p]; a delimiter with none after it; or
    the nearest delimiter at or before [p] paired with the next one. *)
Inductive locates (ed : Editor) (p : Z) : FenceInfo -> Prop :=
| loc_no_open :
    noneUpTo ed p -> locates ed p noFence
| loc_no_close (o : Z) :
    openAt ed p o -> noneAfter ed o -> locates ed p noFence
| loc_pair (o c : Z) (lo : string) :
    openAt ed p o -> closeAt ed o c -> getLine ed o = Some lo ->
    locates ed p {| inside := ((o <? p) && (p <? c))%Z;
                    lang := extractFenceLang lo;
                    startLine := o;
                    endLine := c |}.

(** Every character of [s] satisfies [p]. *)
Fixpoint allChars (p : ascii -> bool) (s : string) : bool :=
  match s with
  | "" => true
  | String c r => p c && allChars p r
  end.
(** ** The formatter process

    The child process is the outside world: an invocation is modelled by the
    events the process emits, in order.  The promise of [runFormatter]
    settles once, at the first [error] or [close] event; it stays pending
    ([None]) when neither comes.  An output chunk is given here as the
    string [d.toString()] yields for it; the bytes of the chunks are the
    matter of [onRawChildEvent] below. *)

Inductive ChildEvent : Set :=
| StdoutData (d : string)
| StderrData (d : string)
| ErrorEvent (cause : string)
| CloseEvent (code : option Z).

(** The two ways the promise is rejected: [reject(e)] of the [error]
    listener and [reject(new Error(...))] of the [close] listener. *)
Inductive Failure : Set :=
| SpawnError (cause : string)
| FormatterError (message : string).

Inductive Settled : Set :=
| Resolved (text : string)
| Rejected (e : Failure).

Record RunState : Set :=
  { out : string; err : string; settled : option Settled }.

Definition settle (st : RunState) (r : Settled) : RunState :=
  match settled st with
  | Some _ => st
  | None => {| out := out st; err := err st; settled := Some r |}
  end.

(** [String(code)] inside the template literal. *)
Definition showCode (code : option Z) : string :=
  match code with
  | Some n => Str.ofZ n
  | None => "null"
  end.

Definition isZero (code : option Z) : bool :=
  match code with
  | Some n => (n =? 0)%Z
  | None => false
  end.

(** [a || b] on strings. *)
Definition orElse (a b : string) : string :=
  match a with
  | "" => b
  | _ => a
  end.

Definition onChildEvent (input : string) (st : RunState) (ev : ChildEvent)
    : RunState :=
  match ev with
  | StdoutData d => {| out := out st ++ d; err := err st; settled := settled st |}
  | StderrData d => {| out := out st; err := err st ++ d; settled := settled st |}
  | ErrorEvent e => settle st (Rejected (SpawnError e))
  | CloseEvent code =>
      if isZero code then settle st (Resolved (orElse (out st) input))
      else settle st
             (Rejected (FormatterError
                (orElse (err st) ("Formatter exited with code " ++ showCode code))))
  end.

Definition startState : RunState := {| out := ""; err := ""; settled := None |}.

(** [runFormatter] on a process that emits [events]. *)
Definition runFormatterOn (events : list ChildEvent) (input : string)
    : option Settled :=
  settled (fold_left (onChildEvent input) events startState).

Definition isData (ev : ChildEvent) : bool :=
  match ev with
  | StdoutData _ | StderrData _ => true
  | _ => false
  end.

Definition stdoutOf (events : list ChildEvent) : string :=
  fold_left (fun acc ev => match ev with StdoutData d => acc ++ d | _ => acc end)
    events "".

Definition stderrOf (events : list ChildEvent) : string :=
  fold_left (fun acc ev => match ev with StderrData d => acc ++ d | _ => acc end)
    events "".

(** ** The plugin *)

Inductive Engine : Set := Ruff | Black.

Inductive Scope : Set := BlockScope | SnippetScope.

Record PythonPasteFormatterSettings : Set :=
  { enabled : bool;
    engine : Engine;
    ruffPath : string;
    blackPath : string;
    lineLength : Z;
    scope : Scope }.

Definition DEFAULT_SETTINGS : PythonPasteFormatterSettings :=
  {| enabled := true; engine := Ruff; ruffPath := "ruff"; blackPath := "black";
     lineLength := 88; scope := BlockScope |}.

Record Plugin : Set :=
  { settings : PythonPasteFormatterSettings; lastPasteAt : Z }.

Definition withLastPasteAt (p : Plugin) (t : Z) : Plugin :=
  {| settings := settings p; lastPasteAt := t |}.

(** A paste event as the handler reads it: [Date.now()] at delivery,
    [evt.defaultPrevented], [view instanceof MarkdownView] and
    [evt.clipboardData?.getData('text/plain')]. *)
Record PasteEvent : Set :=
  { now : Z;
    defaultPrevented : bool;
    viewIsMarkdown : bool;
    clipboardText : option string }.

(** What the handler does to the world, in order. *)
Inductive Effect : Set :=
| PreventDefault
| SpawnFormatter (cmd : string) (args : list string) (input : string)
| ReplaceBlock (info : FenceInfo) (newCode : string)
| ReplaceSelection (text : string)
| ConsoleError.

Record PasteResult : Set :=
  { plugin : Plugin; effects : list Effect; buffer : string }.

(** The handler returned without touching the event or the buffer: the
    host's default paste proceeds. *)
Definition ignored (p : Plugin) (ed : Editor) : PasteResult :=
  {| plugin := p; effects := []; buffer := value ed |}.

Definition prevented (r : PasteResult) : bool :=
  existsb (fun e => match e with PreventDefault => true | _ => false end)
    (effects r).

Definition spawned (r : PasteResult) : bool :=
  existsb (fun e => match e with SpawnFormatter _ _ _ => true | _ => false end)
    (effects r).

Definition replacedBlock (r : PasteResult) : bool :=
  existsb (fun e => match e with ReplaceBlock _ _ => true | _ => false end)
    (effects r).

Section Handler.

(** The behaviour of the executable started by [spawn(cmd, args)] when it
    is fed [input]. *)
Variable spawn : string -> list string -> string -> list ChildEvent.

Definition runFormatter (cmd : string) (args : list string) (input : string)
    : option Settled :=
  runFormatterOn (spawn cmd args input) input.

Definition formatCall (p : Plugin) : string * list string :=
  match engine (settings p) with
  | Ruff =>
      (ruffPath (settings p),
       ["format"; "--stdin-filename"; "pasted.py"; "--line-length";
        Str.ofZ (lineLength (settings p)); "-"])
  | Black =>
      (blackPath (settings p),
       ["-q"; "--stdin-filename"; "pasted.py"; "--line-length";
        Str.ofZ (lineLength (settings p)); "-"])
  end.

Definition formatText (p : Plugin) (code : string) : option Settled :=
  let (cmd, args) := formatCall p in runFormatter cmd args code.

Definition spawnEffect (p : Plugin) (code : string) : Effect :=
  let (cmd, args) := formatCall p in SpawnFormatter cmd args code.

(** The [editor-paste] listener.  The buffer is taken not to change while
    the formatter runs; [buffer] is its text when the listener is done. *)
Definition editorPaste (p : Plugin) (evt : PasteEvent) (ed : Editor)
    : PasteResult :=
  if (now evt - lastPasteAt p <? 250)%Z then ignored p ed
  else
    let p := withLastPasteAt p (now evt) in
    if negb (enabled (settings p)) then ignored p ed
    else if defaultPrevented evt then ignored p ed
    else if negb (viewIsMarkdown evt) then ignored p ed
    else
      match findFenceInfo ed (getCursor ed Head) with
      | None => {| plugin := p; effects := [ConsoleError]; buffer := value ed |}
      | Some info =>
          if negb (inside info) || negb (isPythonLang (lang info))
          then ignored p ed
          else
            match clipboardText evt with
            | None => ignored p ed
            | Some "" => ignored p ed
            | Some text =>
                match scope (settings p) with
                | SnippetScope =>
                    match formatText p text with
                    | Some (Resolved formattedSnippet) =>
                        {| plugin := p;
                           effects := [PreventDefault; spawnEffect p text;
                                       ReplaceSelection formattedSnippet];
                           buffer := replaceSelection ed formattedSnippet |}
                    | Some (Rejected _) =>
                        {| plugin := p;
                           effects := [PreventDefault; spawnEffect p text;
                                       ReplaceSelection text];
                           buffer := replaceSelection ed text |}
                    | None =>
                        {| plugin := p;
                           effects := [PreventDefault; spawnEffect p text];
                           buffer := value ed |}
                    end
                | BlockScope =>
                    let merged := mergePasteIntoBlock ed info text in
                    match formatText p merged with
                    | Some (Resolved formatted) =>
                        {| plugin := p;
                           effects := [PreventDefault; spawnEffect p merged;
                                       ReplaceBlock info formatted];
                           buffer := replaceBlock ed info formatted |}
                    | Some (Rejected _) =>
                        {| plugin := p;
                           effects := [PreventDefault; spawnEffect p merged;
                                       ConsoleError; ReplaceSelection text];
                           buffer := replaceSelection ed text |}
                    | None =>
                        {| plugin := p;
                           effects := [PreventDefault; spawnEffect p merged];
                           buffer := value ed |}
                    end
                end
            end
      end.

End Handler.

Definition withClipboard (evt : PasteEvent) (c : option string) : PasteEvent :=
  {| now := now evt; defaultPrevented := defaultPrevented evt;
     viewIsMarkdown := viewIsMarkdown evt; clipboardText := c |}.

(** ** Sample processes, events and plugin state *)

Definition tidyFormatter (cmd : string) (args : list string) (input : string)
    : list ChildEvent :=
  [StdoutData "x = 1"; StdoutData nl; CloseEvent (Some 0%Z)].

Definition brokenFormatter (cmd : string) (args : list string) (input : string)
    : list ChildEvent :=
  [StderrData "error: "; StderrData "invalid syntax"; CloseEvent (Some 123%Z)].

Definition missingFormatter (cmd : string) (args : list string) (input : string)
    : list ChildEvent :=
  [ErrorEvent "spawn ruff ENOENT"].

Definition plugin0 : Plugin :=
  {| settings := DEFAULT_SETTINGS; lastPasteAt := 0 |}.

Definition pasteAt (t : Z) (text : string) : PasteEvent :=
  {| now := t; defaultPrevented := false; viewIsMarkdown := true;
     clipboardText := Some text |}.

(** ** The command, the settings tab and runs of paste events *)

(** What the command callback did: its [console.warn], the formatter and
    editor effects, and the text of the buffer when it is done. *)
Record CommandResult : Set :=
  { warned : bool; cmdEffects : list Effect; cmdBuffer : string }.

Section Command.

Variable spawn : string -> list string -> string -> list ChildEvent.

(** The [editorCallback] of [format-current-python-codeblock].  A
    [getLine] that raises leaves the callback without any effect. *)
Definition formatCurrentBlock (p : Plugin) (ed : Editor) : option CommandResult :=
  match findFenceInfo ed (getCursor ed Head) with
  | None => None
  | Some info =>
      if negb (inside info) || negb (isPythonLang (lang info))
      then Some {| warned := true; cmdEffects := []; cmdBuffer := value ed |}
      else
        let before := getBlockText ed info in
        match formatText spawn p before with
        | Some (Resolved formatted) =>
            Some {| warned := false;
                    cmdEffects := [spawnEffect p before; ReplaceBlock info formatted];
                    cmdBuffer := replaceBlock ed info formatted |}
        | Some (Rejected _) =>
            Some {| warned := false;
                    cmdEffects := [spawnEffect p before; ConsoleError];
                    cmdBuffer := value ed |}
        | None =>
            Some {| warned := false;
                    cmdEffects := [spawnEffect p before];
                    cmdBuffer := value ed |}
        end
  end.

(** Paste events delivered one after the other, each with the editor as it
    is at delivery; the plugin's state is threaded through. *)
Fixpoint pasteRun (p : Plugin) (deliveries : list (PasteEvent * Editor))
    : list PasteResult :=
  match deliveries with
  | [] => []
  | (evt, ed) :: rest =>
      let r := editorPaste spawn p evt ed in
      r :: pasteRun (plugin r) rest
  end.

End Command.

Definition withSettings (p : Plugin) (s : PythonPasteFormatterSettings) : Plugin :=
  {| settings := s; lastPasteAt := lastPasteAt p |}.

(** The [onChange] of the "Ruff path" field: [v.trim() || 'ruff']. *)
Definition onRuffPathChange (p : Plugin) (v : string) : Plugin :=
  let s := settings p in
  withSettings p
    {| enabled := enabled s; engine := engine s;
       ruffPath := orElse (Str.trim v) "ruff"; blackPath := blackPath s;
       lineLength := lineLength s; scope := scope s |}.

(** The [onChange] of the "Black path" field: [v.trim() || 'black']. *)
Definition onBlackPathChange (p : Plugin) (v : string) : Plugin :=
  let s := settings p in
  withSettings p
    {| enabled := enabled s; engine := engine s;
       ruffPath := ruffPath s; blackPath := orElse (Str.trim v) "black";
       lineLength := lineLength s; scope := scope s |}.

(** The editor once its buffer holds [text]. *)
Definition withValue (ed : Editor) (text : string) : Editor :=
  {| value := text; anchor := anchor ed; head := head ed |}.

(** The lines [ls], each followed by a line break. *)
Fixpoint unlines (ls : list string) : string :=
  match ls with
  | [] => ""
  | l :: rest => l ++ nl ++ unlines rest
  end.

(** A formatter that prints its input back and exits with status 0. *)
Definition echoFormatter (cmd : string) (args : list string) (input : string)
    : list ChildEvent :=
  [StdoutData input; CloseEvent (Some 0%Z)].

(** A formatter that exits with status 0 without printing anything. *)
Definition silentFormatter (cmd : string) (args : list string) (input : string)
    : list ChildEvent :=
  [CloseEvent (Some 0%Z)].

(** ** The tag as the specification words it

    Following the spec's words (4.1): on the trimmed opening line, "after
    the backticks, an optional run of non-whitespace, non-brace characters
    is captured verbatim (case preserved) as lang, or is absent if no such
    token follows".  This is the reading of the specification, to be
    compared with [extractFenceLang], the parser of the source. *)

Definition specTagChar (c : ascii) : bool :=
  negb (Str.isSpace c || Ascii.eqb c "{"%char || Ascii.eqb c "}"%char).

Definition specFenceLang (fenceLine : string) : option string :=
  let (ticks, rest) := Str.span isBacktick (Str.trim fenceLine) in
  if String.length ticks <? 3 then None
  else
    let (tag, _) := Str.span specTagChar rest in
    match tag with
    | "" => None
    | _ => Some tag
    end.

(** [lang] for the tag run [tag] of an opening line: [null] when the run
    is empty. *)
Definition tagOrNull (tag : string) : option string :=
  match tag with
  | "" => None
  | _ => Some tag
  end.

Definition backtickTag : string :=
  "```py`x" ++ nl ++ "x = 1" ++ nl ++ "```".

(** ** Output chunks as the process writes them

    The [data] listeners of [runFormatter] receive [Buffer]s and turn each
    one into a string on its own ([d.toString()]).  Here a chunk is its
    bytes, a JavaScript string is its UTF-16 code units, and
    [bufferToString] is the UTF-8 decoding of [Buffer.prototype.toString]:
    every ill-formed or unfinished sequence gives U+FFFD. *)

Definition JsString : Set := list N.

Definition unitsOf (s : string) : JsString :=
  map N_of_ascii (list_ascii_of_string s).

Record Utf8State : Set :=
  { codePoint : N; remaining : nat; lower : N; upper : N }.

Definition utf8Idle : Utf8State :=
  {| codePoint := 0; remaining := 0; lower := 128; upper := 191 |}.

Definition replacementChar : N := 65533.

(** A code point as UTF-16: itself, or a surrogate pair. *)
Definition unitsOfCodePoint (cp : N) : list N :=
  if (cp <? 65536)%N then [cp]
  else
    let v := (cp - 65536)%N in
    [(55296 + N.shiftr v 10)%N; (56320 + N.land v 1023)%N].

(** A byte met when no sequence is under way. *)
Definition utf8Start (b : N) : list N * Utf8State :=
  if (b <=? 127)%N then ([b], utf8Idle)
  else if ((194 <=? b) && (b <=? 223))%N then
    ([], {| codePoint := N.land b 31; remaining := 1;
            lower := 128; upper := 191 |})
  else if ((224 <=? b) && (b <=? 239))%N then
    ([], {| codePoint := N.land b 15; remaining := 2;
            lower := if (b =? 224)%N then 160%N else 128%N;
            upper := if (b =? 237)%N then 159%N else 191%N |})
  else if ((240 <=? b) && (b <=? 244))%N then
    ([], {| codePoint := N.land b 7; remaining := 3;
            lower := if (b =? 240)%N then 144%N else 128%N;
            upper := if (b =? 244)%N then 143%N else 191%N |})
  else ([replacementChar], utf8Idle).

(** One byte of input: a continuation byte in range extends the sequence
    under way; any other byte ends it with U+FFFD and is then read
    afresh. *)
Definition utf8Step (st : Utf8State) (b : N) : list N * Utf8State :=
  match remaining st with
  | 0 => utf8Start b
  | S n =>
      if ((lower st <=? b) && (b <=? upper st))%N then
        let cp := N.lor (N.shiftl (codePoint st) 6) (N.land b 63) in
        match n with
        | 0 => (unitsOfCodePoint cp, utf8Idle)
        | S _ => ([], {| codePoint := cp; remaining := n;
                         lower := 128; upper := 191 |})
        end
      else
        let (us, st') := utf8Start b in (replacementChar :: us, st')
  end.

Fixpoint utf8Decode (st : Utf8State) (bytes : list Byte.byte) : JsString :=
  match bytes with
  | [] => match remaining st with
          | 0 => []
          | S _ => [replacementChar]
          end
  | b :: rest =>
      let (us, st') := utf8Step st (Byte.to_N b) in
      (us ++ utf8Decode st' rest)%list
  end.

(** [d.toString()] for a [Buffer] [d]. *)
Definition bufferToString (d : list Byte.byte) : JsString :=
  utf8Decode utf8Idle d.

Inductive RawChildEvent : Set :=
| RawStdout (d : list Byte.byte)
| RawStderr (d : list Byte.byte)
| RawError (cause : string)
| RawClose (code : option Z).

Inductive RawSettled : Set :=
| RawResolved (text : JsString)
| RawSpawnError (cause : string)
| RawFormatterError (message : JsString).

Record RawRunState : Set :=
  { rawOut : JsString; rawErr : JsString; rawSettled : option RawSettled }.

Definition rawSettle (st : RawRunState) (r : RawSettled) : RawRunState :=
  match rawSettled st with
  | Some _ => st
  | None => {| rawOut := rawOut st; rawErr := rawErr st; rawSettled := Some r |}
  end.

(** [a || b] on strings given by their code units. *)
Definition rawOrElse (a b : JsString) : JsString :=
  match a with
  | [] => b
  | _ :: _ => a
  end.

(** The listeners of [runFormatter], chunk by chunk:
    [out += d.toString()], [err += d.toString()], [reject(e)] and the
    [close] listener. *)
Definition onRawChildEvent (input : JsString) (st : RawRunState)
    (ev : RawChildEvent) : RawRunState :=
  match ev with
  | RawStdout d =>
      {| rawOut := (rawOut st ++ bufferToString d)%list; rawErr := rawErr st;
         rawSettled := rawSettled st |}
  | RawStderr d =>
      {| rawOut := rawOut st; rawErr := (rawErr st ++ bufferToString d)%list;
         rawSettled := rawSettled st |}
  | RawError e => rawSettle st (RawSpawnError e)
  | RawClose code =>
      if isZero code then rawSettle st (RawResolved (rawOrElse (rawOut st) input))
      else rawSettle st
             (RawFormatterError
                (rawOrElse (rawErr st)
                   (unitsOf ("Formatter exited with code " ++ showCode code))))
  end.

(** [runFormatter] on a process that emits [events], its output given as
    the bytes of each chunk. *)
Definition runFormatterBytes (events : list RawChildEvent) (input : JsString)
    : option RawSettled :=
  rawSettled
    (fold_left (onRawChildEvent input) events
       {| rawOut := []; rawErr := []; rawSettled := None |}).

Definition isRawData (ev : RawChildEvent) : bool :=
  match ev with
  | RawStdout _ | RawStderr _ => true
  | _ => false
  end.

(** The bytes a process wrote to standard output, all chunks together. *)
Definition stdoutBytes (events : list RawChildEvent) : list Byte.byte :=
  flat_map (fun ev => match ev with RawStdout d => d | _ => [] end) events.

(** A formatter that prints "é" and a line break, the two bytes of "é"
    arriving in different chunks, and exits with status 0. *)
Definition splitChunks : list RawChildEvent :=
  [RawStdout [Byte.xc3]; RawStdout [Byte.xa9; Byte.x0a]; RawClose (Some 0%Z)].

(** The same output in one chunk. *)
Definition oneChunk : list RawChildEvent :=
  [RawStdout [Byte.xc3; Byte.xa9; Byte.x0a]; RawClose (Some 0%Z)].

Example trim_ex : Str.trim "  ```py  " = "```py".
Proof. reflexivity. Qed.

Example splitLines_ex :
  Str.splitLines (String "a" (String "010" (String "010" "b"))) = ["a"; ""; "b"].
Proof. reflexivity. Qed.

Example lower_ex : Str.toLowerCase "PyThOn3" = "python3".
Proof. reflexivity. Qed.

Example ofZ_ex : Str.ofZ 88 = "88" /\ Str.ofZ 0 = "0" /\ Str.ofZ (-2) = "-2".
Proof. repeat split. Qed.

Example find_ex1 :
  findFenceInfo (cursorAt twoFences 1 0) {| line := 1; ch := 0 |}
  = Some {| inside := true; lang := Some "python"; startLine := 0; endLine := 2 |}.
Proof. reflexivity. Qed.

Example find_ex2 :
  findFenceInfo (cursorAt twoFences 3 0) {| line := 3; ch := 0 |}
  = Some {| inside := true; lang := None; startLine := 2; endLine := 4 |}.
Proof. reflexivity. Qed.

Example block_ex :
  getBlockText (cursorAt twoFences 1 0)
    {| inside := true; lang := Some "python"; startLine := 0; endLine := 2 |}
  = "x = 1" ++ nl.
Proof. reflexivity. Qed.

(** ** Slices *)

Section Slices.

Lemma take_drop (n : nat) (s : string) : Str.take n s ++ Str.drop n s = s.
Proof.
  revert s; induction n as [|n IH]; intros [|c r]; simpl; trivial.
  now rewrite IH.
Qed.

Lemma drop_drop (m n : nat) (s : string) :
  Str.drop n (Str.drop m s) = Str.drop (m + n) s.
Proof.
  revert s; induction m as [|m IH]; intros s; simpl; trivial.
  destruct s as [|c r]; [now destruct n | apply IH].
Qed.

Lemma take_take (m n : nat) (s : string) :
  m <= n -> Str.take m (Str.take n s) = Str.take m s.
Proof.
  revert n s; induction m as [|m IH]; intros n s Hle; simpl.
  - now destruct (Str.take n s).
  - destruct n as [|n]; [lia|].
    destruct s as [|c r]; simpl; trivial.
    rewrite IH by lia; trivial.
Qed.

Lemma drop_take (k n : nat) (s : string) :
  Str.drop k (Str.take n s) = Str.take (n - k) (Str.drop k s).
Proof.
  revert n s; induction k as [|k IH]; intros n s; simpl.
  - now rewrite Nat.sub_0_r.
  - destruct n as [|n]; destruct s as [|c r]; simpl; trivial.
    now destruct (n - k).
Qed.

Lemma slice_split (a b : nat) (s : string) :
  a <= b -> Str.take a s ++ Str.slice a b s ++ Str.drop b s = s.
Proof.
  intros Hab; unfold Str.slice.
  replace (Str.drop b s) with (Str.drop (b - a) (Str.drop a s))
    by (rewrite drop_drop; f_equal; lia).
  now rewrite take_drop, take_drop.
Qed.

Lemma slice_prefix (a b c : nat) (s : string) :
  b <= c -> isPrefixOf (Str.slice a b s) (Str.slice a c s).
Proof.
  intros Hbc; exists (b - a); unfold Str.slice.
  rewrite take_take by lia; trivial.
Qed.

Lemma slice_suffix (a b c : nat) (s : string) :
  a <= b -> isSuffixOf (Str.slice b c s) (Str.slice a c s).
Proof.
  intros Hab; exists (b - a); unfold Str.slice.
  rewrite drop_take, drop_drop.
  f_equal; [lia | f_equal; lia].
Qed.

End Slices.

(** ** Offsets grow with the line *)

Lemma offsetAt_line_le (ls : list string) (l1 l2 c : nat) :
  l1 <= l2 -> offsetAt ls l1 0 <= offsetAt ls l2 c.
Proof.
  revert l1 l2; induction ls as [|x rest IH]; intros l1 l2 Hle; simpl; [lia|].
  destruct l1 as [|l1]; [simpl; lia|].
  destruct l2 as [|l2]; [lia|].
  destruct rest as [|y rest']; [lia|].
  specialize (IH l1 l2); lia.
Qed.

Lemma offsetAt_line_lt (ls : list string) (l1 l2 c : nat) :
  l1 < l2 -> offsetAt ls l1 c <= offsetAt ls l2 0.
Proof.
  revert l1 l2; induction ls as [|x rest IH]; intros l1 l2 Hlt; simpl; [lia|].
  destruct l2 as [|l2]; [lia|].
  destruct l1 as [|l1].
  - destruct rest; lia.
  - destruct rest as [|y rest']; [lia|].
    specialize (IH l1 l2); lia.
Qed.

Lemma posToOffset_col0_le (ed : Editor) (p q : EditorPosition) :
  (line p <= line q)%Z -> (ch p <= 0)%Z -> posToOffset ed p <= posToOffset ed q.
Proof.
  intros Hl Hc; unfold posToOffset.
  destruct (Z.ltb_spec (line p) 0); [lia|].
  destruct (Z.ltb_spec (line q) 0); [lia|].
  replace (Z.to_nat (ch p)) with 0 by lia.
  apply offsetAt_line_le; lia.
Qed.

Lemma posToOffset_line_lt (ed : Editor) (p q : EditorPosition) :
  (line p < line q)%Z -> (ch q = 0)%Z -> posToOffset ed p <= posToOffset ed q.
Proof.
  intros Hl Hc; unfold posToOffset.
  destruct (Z.ltb_spec (line p) 0); [lia|].
  destruct (Z.ltb_spec (line q) 0); [lia|].
  rewrite Hc; apply offsetAt_line_lt; lia.
Qed.

Lemma block_offsets (ed : Editor) (info : FenceInfo) :
  (startLine info < endLine info)%Z ->
  posToOffset ed (blockStart info) <= posToOffset ed (blockEnd info).
Proof.
  intros H; apply posToOffset_col0_le; simpl; lia.
Qed.

(** ** The two scans *)

Lemma getLine_some (ed : Editor) (i : Z) :
  (0 <= i < lineCount ed)%Z -> exists l, getLine ed i = Some l.
Proof.
  unfold getLine, lineCount; intros [H0 H1].
  destruct (Z.ltb_spec i 0); [lia|].
  destruct (nth_error (lines ed) (Z.to_nat i)) eqn:E; [eauto|].
  apply nth_error_None in E; lia.
Qed.

Lemma getLine_range (ed : Editor) (i : Z) (l : string) :
  getLine ed i = Some l -> (0 <= i < lineCount ed)%Z.
Proof.
  unfold getLine, lineCount.
  destruct (Z.ltb_spec i 0); [discriminate|]; intros E.
  assert (Z.to_nat i < List.length (lines ed))
    by (apply nth_error_Some; congruence).
  lia.
Qed.

Lemma fenceLine_range (ed : Editor) (i : Z) :
  fenceLine ed i = true -> (0 <= i < lineCount ed)%Z.
Proof.
  unfold fenceLine; destruct (getLine ed i) eqn:E; [|discriminate].
  intros _; eapply getLine_range; eauto.
Qed.

Lemma fenceLine_outside (ed : Editor) (i : Z) :
  (i < 0 \/ lineCount ed <= i)%Z -> fenceLine ed i = false.
Proof.
  intros H; destruct (fenceLine ed i) eqn:E; trivial.
  apply fenceLine_range in E; lia.
Qed.

Lemma scanOpen_spec (ed : Editor) (i : nat) :
  (Z.of_nat i < lineCount ed)%Z ->
  exists o, scanOpen ed i = Some o
    /\ ((o = -1 /\ noneUpTo ed (Z.of_nat i))%Z \/ openAt ed (Z.of_nat i) o).
Proof.
  induction i as [|i IH]; intros Hi;
    destruct (getLine_some ed (Z.of_nat _) (conj (Nat2Z.is_nonneg _) Hi))
      as [l El];
    cbn [scanOpen]; rewrite El;
    assert (Ef : fenceLine ed (Z.of_nat _) = isFence l)
      by (unfold fenceLine; now rewrite El);
    destruct (isFence l) eqn:Fl.
  - eexists; split; [reflexivity|]; right; repeat split; try lia; trivial.
  - eexists; split; [reflexivity|]; left; split; trivial.
    intros k Hk. destruct (Z.eq_dec k 0) as [->|]; trivial.
    apply fenceLine_outside; lia.
  - eexists; split; [reflexivity|]; right; repeat split; try lia; trivial.
  - destruct IH as (o & Eo & Ho); [lia|].
    exists o; split; trivial.
    destruct Ho as [[-> Hn] | (Hr & Hf & Hn)].
    + left; split; trivial.
      intros k Hk. destruct (Z.eq_dec k (Z.of_nat (S i))) as [->|]; trivial.
      apply Hn; lia.
    + right; repeat split; try lia; trivial.
      intros k Hk. destruct (Z.eq_dec k (Z.of_nat (S i))) as [->|]; trivial.
      apply Hn; lia.
Qed.

Lemma scanClose_spec (ed : Editor) (n : nat) :
  forall j, (0 <= j)%Z -> (j + Z.of_nat n <= lineCount ed)%Z ->
  exists c, scanClose ed j n = Some c
    /\ ((c = -1 /\ forall k, j <= k < j + Z.of_nat n -> fenceLine ed k = false)
        \/ (j <= c < j + Z.of_nat n /\ fenceLine ed c = true
            /\ forall k, j <= k < c -> fenceLine ed k = false))%Z.
Proof.
  induction n as [|n IH]; intros j H0 Hn; cbn [scanClose].
  - eexists; split; [reflexivity|]; left; split; trivial; intros k Hk; lia.
  - destruct (getLine_some ed j) as [l El]; [lia|]; rewrite El.
    assert (Ef : fenceLine ed j = isFence l)
      by (unfold fenceLine; now rewrite El).
    destruct (isFence l) eqn:Fl.
    + eexists; split; [reflexivity|]; right; repeat split; try lia; trivial.
    + destruct (IH (j + 1)%Z) as (c & Ec & Hc); [lia | lia |].
      exists c; split; trivial.
      destruct Hc as [[-> Hall] | (Hr & Hf & Hall)].
      * left; split; trivial.
        intros k Hk. destruct (Z.eq_dec k j) as [->|]; trivial.
        apply Hall; lia.
      * right; repeat split; try lia; trivial.
        intros k Hk. destruct (Z.eq_dec k j) as [->|]; trivial.
        apply Hall; lia.
Qed.

(** [findFenceInfo] returns for every cursor on a line of the buffer, and
    what it returns is described by [locates]. *)
Lemma findFenceInfo_locates (ed : Editor) (pos : EditorPosition) :
  (0 <= line pos < lineCount ed)%Z ->
  exists fi, findFenceInfo ed pos = Some fi /\ locates ed (line pos) fi.
Proof.
  intros [H0 H1]; unfold findFenceInfo.
  destruct (Z.ltb_spec (line pos) 0); [lia|].
  destruct (scanOpen_spec ed (Z.to_nat (line pos))) as (o & Eo & Ho); [lia|].
  rewrite Z2Nat.id in Ho by lia; rewrite Eo.
  destruct Ho as [[-> Hn] | Hopen].
  - exists noFence; split; [reflexivity | now constructor].
  - pose proof Hopen as (Hr & Hf & _).
    apply fenceLine_range in Hf.
    destruct (Z.eqb_spec o (-1)); [lia|].
    destruct (scanClose_spec ed (Z.to_nat (lineCount ed - (o + 1))) (o + 1)%Z)
      as (c & Ec & Hc); [lia | lia |].
    rewrite Ec; rewrite Z2Nat.id in Hc by lia.
    destruct Hc as [[-> Hall] | (Hcr & Hcf & Hall)].
    + exists noFence; split; [reflexivity|].
      apply loc_no_close with o; trivial.
      intros k Hk. destruct (Z.lt_ge_cases k (lineCount ed)).
      * apply Hall; lia.
      * apply fenceLine_outside; lia.
    + destruct (Z.eqb_spec c (-1)); [lia|].
      destruct (getLine_some ed o) as [lo Elo]; [lia|]; rewrite Elo.
      eexists; split; [reflexivity|].
      apply loc_pair; trivial.
      repeat split; try lia; trivial.
      intros k Hk; apply Hall; lia.
Qed.

(** The nearest delimiter before and the next one after are unique. *)
Lemma openAt_unique (ed : Editor) (p o o' : Z) :
  openAt ed p o -> openAt ed p o' -> o = o'.
Proof.
  intros (Hr & Hf & Hn) (Hr' & Hf' & Hn').
  destruct (Z.lt_trichotomy o o') as [Hlt | [-> | Hgt]]; trivial.
  - rewrite Hn in Hf' by lia; discriminate.
  - rewrite Hn' in Hf by lia; discriminate.
Qed.

Lemma closeAt_unique (ed : Editor) (o c c' : Z) :
  closeAt ed o c -> closeAt ed o c' -> c = c'.
Proof.
  intros (Hr & Hf & Hn) (Hr' & Hf' & Hn').
  destruct (Z.lt_trichotomy c c') as [Hlt | [-> | Hgt]]; trivial.
  - rewrite Hn' in Hf by lia; discriminate.
  - rewrite Hn in Hf' by lia; discriminate.
Qed.

Lemma openAt_some (ed : Editor) (p o : Z) :
  openAt ed p o -> ~ noneUpTo ed p.
Proof.
  intros (Hr & Hf & _) Hn; rewrite Hn in Hf by lia; discriminate.
Qed.

Lemma closeAt_some (ed : Editor) (o c : Z) :
  closeAt ed o c -> ~ noneAfter ed o.
Proof.
  intros (Hr & Hf & _) Hn; rewrite Hn in Hf by lia; discriminate.
Qed.

(** A cursor whose line is a delimiter has that line as nearest delimiter. *)
Lemma openAt_self (ed : Editor) (p o : Z) :
  openAt ed p o -> fenceLine ed p = true -> o = p.
Proof.
  intros (Hr & Hf & Hn) Hp.
  destruct (Z.eq_dec o p); trivial.
  rewrite Hn in Hp by lia; discriminate.
Qed.

(** ** The tag of a plain opening line *)

Lemma trimEnd_id (s : string) :
  allChars (fun c => negb (Str.isSpace c)) s = true -> Str.trimEnd s = s.
Proof.
  induction s as [|c r IH]; simpl; trivial.
  intros H; apply andb_true_iff in H as [Hc Hr].
  rewrite (IH Hr); destruct r; trivial.
  now apply negb_true_iff in Hc as ->.
Qed.

Lemma span_all (p : ascii -> bool) (s : string) :
  allChars p s = true -> Str.span p s = (s, "").
Proof.
  induction s as [|c r IH]; simpl; trivial.
  intros H; apply andb_true_iff in H as [-> Hr].
  now rewrite (IH Hr).
Qed.

Lemma isTagChar_inv (c : ascii) :
  isTagChar c = true -> Str.isSpace c = false /\ isBacktick c = false.
Proof.
  unfold isTagChar; rewrite negb_true_iff, !orb_false_iff; tauto.
Qed.

Lemma allChars_weaken (p q : ascii -> bool) (s : string) :
  (forall c, p c = true -> q c = true) ->
  allChars p s = true -> allChars q s = true.
Proof.
  intros Hpq; induction s as [|c r IH]; simpl; trivial.
  rewrite !andb_true_iff; intros [Hc Hr]; auto.
Qed.

(** An opening line made of three backticks and a tag yields that tag,
    case preserved. *)
Lemma extractFenceLang_plain (tag : string) :
  tag <> "" -> allChars isTagChar tag = true ->
  extractFenceLang ("```" ++ tag) = Some tag.
Proof.
  intros Hne Hall; unfold extractFenceLang, Str.trim.
  assert (Hns : allChars (fun c => negb (Str.isSpace c)) tag = true).
  { apply (allChars_weaken isTagChar); trivial.
    intros c Hc; apply isTagChar_inv in Hc as [-> _]; trivial. }
  change (Str.trimStart ("```" ++ tag)) with ("```" ++ tag).
  rewrite trimEnd_id by (simpl; exact Hns).
  destruct tag as [|c r]; [contradiction|].
  simpl in Hall; apply andb_true_iff in Hall as [Hc Hr].
  pose proof (isTagChar_inv c Hc) as [Hsp Hbt].
  cbn [append Str.span]; change (isBacktick "`"%char) with true; cbn iota.
  rewrite Hbt; cbn [String.length Nat.ltb Nat.leb Str.span].
  rewrite Hsp; cbn [Str.span]; rewrite Hc, (span_all _ _ Hr); reflexivity.
Qed.

Example extractFenceLang_ex :
  extractFenceLang "```python" = Some "python"
  /\ extractFenceLang "``` Py3 title" = Some "Py3"
  /\ extractFenceLang "````" = None
  /\ extractFenceLang "```{python}" = None
  /\ extractFenceLang "``x" = None.
Proof. repeat split. Qed.

Example isPythonLang_ex :
  isPythonLang (Some "PyThOn") = true
  /\ isPythonLang (Some "py3") = true
  /\ isPythonLang (Some "javascript") = false
  /\ isPythonLang (Some "") = false
  /\ isPythonLang None = false.
Proof. repeat split. Qed.

(** ** What [findFenceInfo] reports *)

Lemma inside_of_delimiters (o p c : Z) :
  ((o <? p) && (p <? c) = true <-> o < p < c)%Z.
Proof.
  rewrite andb_true_iff, !Z.ltb_lt; tauto.
Qed.

(** C1, counterexample: line 3 of [twoFences] is prose strictly between the
    closing delimiter of the first fence (line 2) and the opening delimiter
    of the second (line 4), and [findFenceInfo] reports [inside = true]
    there, pairing those two delimiters. *)
Lemma between_fences_inside :
  lines (cursorAt twoFences 3 0)
  = ["```python"; "x = 1"; "```"; "prose"; "```py"; "y = 2"; "```"]
  /\ findFenceInfo (cursorAt twoFences 3 0) {| line := 3; ch := 0 |}
     = Some {| inside := true; lang := None; startLine := 2; endLine := 4 |}.
Proof. split; reflexivity. Qed.

(** C1, as amended: for a cursor on a line of the buffer, [findFenceInfo]
    returns [inside = false] exactly when the cursor's line is itself a
    delimiter line, or no delimiter line lies before it, or no delimiter
    line lies after it.  Whether the delimiters around the cursor open or
    close a fence plays no part. *)
Theorem findFenceInfo_not_inside (ed : Editor) (pos : EditorPosition) :
  (0 <= line pos < lineCount ed)%Z ->
  exists fi, findFenceInfo ed pos = Some fi
    /\ (inside fi = false <->
        fenceLine ed (line pos) = true
        \/ (forall k, (k < line pos)%Z -> fenceLine ed k = false)
        \/ (forall k, (line pos < k)%Z -> fenceLine ed k = false)).
Proof.
  intros Hpos.
  destruct (findFenceInfo_locates ed pos Hpos) as (fi & E & Hloc).
  exists fi; split; trivial.
  destruct Hloc as [Hn | o Ho Hn | o c lo Ho Hc Hlo]; cbn [inside noFence].
  - split; trivial; intros _.
    right; left; intros k Hk; apply Hn; lia.
  - split; trivial; intros _.
    destruct Ho as (Hr & Hf & Hb).
    destruct (Z.eq_dec o (line pos)) as [<-|]; [now left|].
    right; right; intros k Hk; apply Hn; lia.
  - pose proof Ho as (Hr & Hf & Hb); pose proof Hc as (Hcr & Hcf & Hcb).
    assert (Hpc : (line pos < c)%Z).
    { destruct (Z.lt_ge_cases (line pos) c); trivial.
      rewrite Hb in Hcf by lia; discriminate. }
    split.
    + intros Hin. left.
      destruct (Z.eq_dec o (line pos)) as [<-|]; trivial.
      assert ((o <? line pos) && (line pos <? c) = true)%Z
        by (apply inside_of_delimiters; lia).
      congruence.
    + intros [Hp | [Hbefore | Hafter]].
      * rewrite (openAt_self ed _ _ Ho Hp), Z.ltb_irrefl; trivial.
      * destruct (Z.eq_dec o (line pos)) as [<-|];
          [now rewrite Z.ltb_irrefl|].
        rewrite Hbefore in Hf by lia; discriminate.
      * rewrite Hafter in Hcf by lia; discriminate.
Qed.

Lemma findFenceInfo_not_inside_witness :
  (0 <= 3 < lineCount (cursorAt twoFences 3 0))%Z
  /\ exists fi,
       findFenceInfo (cursorAt twoFences 3 0) {| line := 3; ch := 0 |} = Some fi
       /\ (inside fi = false <->
           fenceLine (cursorAt twoFences 3 0) 3 = true
           \/ (forall k, (k < 3)%Z -> fenceLine (cursorAt twoFences 3 0) k = false)
           \/ (forall k, (3 < k)%Z -> fenceLine (cursorAt twoFences 3 0) k = false)).
Proof.
  split; [vm_compute; split; [discriminate | reflexivity]|].
  apply (findFenceInfo_not_inside (cursorAt twoFences 3 0) {| line := 3; ch := 0 |}).
  vm_compute; split; [discriminate | reflexivity].
Defined.

(** C4, at the failing input: line 0 of [indentedFence] begins with a
    triple backtick once trimmed, and [extractFenceLang] reads its tag, but
    the scan of [findFenceInfo] tests the untrimmed line and passes over
    it: for a cursor on line 1 no opening delimiter is found. *)
Theorem indented_delimiter_missed :
  lines (cursorAt indentedFence 1 0) = ["  ```python"; "x = 1"; "  ```"]
  /\ Str.startsWith "```" (Str.trim "  ```python") = true
  /\ extractFenceLang "  ```python" = Some "python"
  /\ findFenceInfo (cursorAt indentedFence 1 0) {| line := 1; ch := 0 |}
     = Some noFence.
Proof. repeat split. Qed.

Lemma isPythonLang_iff (l : option string) :
  isPythonLang l = true <->
  exists tag, l = Some tag
    /\ In (Str.toLowerCase tag) ["python"; "py"; "python3"; "py3"].
Proof.
  destruct l as [[|a s]|].
  - split; [discriminate|].
    intros (tag & [= <-] & Hin); simpl in Hin.
    repeat (destruct Hin as [Hin | Hin]; [discriminate|]); contradiction.
  - unfold isPythonLang; rewrite !orb_true_iff, !String.eqb_eq.
    split.
    + intros H; eexists; split; [reflexivity|].
      cbn [In]; intuition auto.
    + intros (tag & [= <-] & Hin); cbn [In] in Hin; intuition auto.
  - split; [discriminate | intros (tag & E & _); discriminate].
Qed.

(** C8, counterexample: with the cursor on the opening delimiter of the
    first fence of [twoFences] there is no enclosing fence
    ([inside = false]), yet [startLine] and [endLine] are 0 and 2. *)
Lemma cursor_on_delimiter_indices :
  fenceLine (cursorAt twoFences 0 0) 0 = true
  /\ findFenceInfo (cursorAt twoFences 0 0) {| line := 0; ch := 0 |}
     = Some {| inside := false; lang := Some "python";
               startLine := 0; endLine := 2 |}.
Proof. split; reflexivity. Qed.

(** C8, as amended: every [FenceInfo] returned for a cursor in the buffer
    has [startLine < endLine] when [inside] is true; a cursor on a delimiter
    line yields [inside = false]; the result is the marker with both indices
    [-1] when no delimiter lies at or before the cursor or none follows the
    nearest one; and whenever both delimiters are found, [startLine] and
    [endLine] are their line numbers, whatever [inside] is. *)
Theorem findFenceInfo_invariant (ed : Editor) (pos : EditorPosition) :
  (0 <= line pos < lineCount ed)%Z ->
  exists fi, findFenceInfo ed pos = Some fi
    /\ (inside fi = true -> (startLine fi < endLine fi)%Z)
    /\ (fenceLine ed (line pos) = true -> inside fi = false)
    /\ (noneUpTo ed (line pos)
        \/ (exists o, openAt ed (line pos) o /\ noneAfter ed o) ->
        fi = noFence)
    /\ (forall o c, openAt ed (line pos) o -> closeAt ed o c ->
        (startLine fi = o /\ endLine fi = c /\ 0 <= o < c)%Z).
Proof.
  intros Hpos.
  destruct (findFenceInfo_locates ed pos Hpos) as (fi & E & Hloc).
  exists fi; split; trivial.
  destruct Hloc as [Hn | o Ho Hn | o c lo Ho Hc Hlo];
    cbn [inside startLine endLine noFence].
  - split; [discriminate|]; split; [trivial|]; split; [trivial|].
    intros o c Ho; now apply openAt_some in Ho.
  - split; [discriminate|]; split; [trivial|]; split; [trivial|].
    intros o' c' Ho' Hc'.
    rewrite (openAt_unique _ _ _ _ Ho' Ho) in Hc'.
    now apply closeAt_some in Hc'.
  - pose proof Hc as (Hoc & _); pose proof Ho as (Hr & _).
    split; [intros _; lia|].
    split; [intros Hp; rewrite (openAt_self _ _ _ Ho Hp), Z.ltb_irrefl; trivial|].
    split.
    + intros [Hn | (o' & Ho' & Hn)].
      * now apply openAt_some in Ho.
      * rewrite (openAt_unique _ _ _ _ Ho' Ho) in Hn.
        now apply closeAt_some in Hc.
    + intros o' c' Ho' Hc'.
      rewrite (openAt_unique _ _ _ _ Ho' Ho) in *.
      rewrite (closeAt_unique _ _ _ _ Hc' Hc); lia.
Qed.

Lemma findFenceInfo_invariant_witness :
  exists fi,
    findFenceInfo (cursorAt twoFences 0 0) {| line := 0; ch := 0 |} = Some fi
    /\ (inside fi = true -> (startLine fi < endLine fi)%Z)
    /\ (fenceLine (cursorAt twoFences 0 0) 0 = true -> inside fi = false)
    /\ (noneUpTo (cursorAt twoFences 0 0) 0
        \/ (exists o, openAt (cursorAt twoFences 0 0) 0 o
                      /\ noneAfter (cursorAt twoFences 0 0) o) ->
        fi = noFence)
    /\ (forall o c, openAt (cursorAt twoFences 0 0) 0 o ->
                    closeAt (cursorAt twoFences 0 0) o c ->
        (startLine fi = o /\ endLine fi = c /\ 0 <= o < c)%Z).
Proof.
  apply (findFenceInfo_invariant (cursorAt twoFences 0 0) {| line := 0; ch := 0 |}).
  vm_compute; split; [discriminate | reflexivity].
Defined.

(** ** Reading and writing the block *)

(** C9: for a [FenceInfo] with [inside = true] and [startLine < endLine],
    replacing the block by the text [getBlockText] returns leaves the
    whole buffer as it was. *)
Theorem replaceBlock_getBlockText (ed : Editor) (info : FenceInfo) :
  inside info = true ->
  (startLine info < endLine info)%Z ->
  replaceBlock ed info (getBlockText ed info) = value ed.
Proof.
  intros _ Hlt.
  unfold replaceBlock, replaceRange, getBlockText, getRange.
  apply slice_split, block_offsets, Hlt.
Qed.

Lemma replaceBlock_getBlockText_witness :
  replaceBlock (cursorAt twoFences 1 0)
    {| inside := true; lang := Some "python"; startLine := 0; endLine := 2 |}
    (getBlockText (cursorAt twoFences 1 0)
       {| inside := true; lang := Some "python"; startLine := 0; endLine := 2 |})
  = twoFences.
Proof.
  apply (replaceBlock_getBlockText (cursorAt twoFences 1 0)
           {| inside := true; lang := Some "python";
              startLine := 0; endLine := 2 |}).
  - reflexivity.
  - simpl; lia.
Defined.

(** C2, counterexample: in [proseThenFence] the fence spans lines 1 to 3;
    with the selection on line 0 (both endpoints before line 2) the merge
    is the pasted text followed by the rest of line 0, the opening
    delimiter line and the block, not the pasted text followed by the
    block. *)
Lemma merge_selection_before_block :
  let ed := select proseThenFence {| line := 0; ch := 0 |} {| line := 0; ch := 1 |} in
  let info := {| inside := true; lang := Some "python";
                 startLine := 1; endLine := 3 |} in
  getBlockText ed info = "x = 1" ++ nl
  /\ mergePasteIntoBlock ed info "P"
     = "Pbc" ++ nl ++ "```python" ++ nl ++ "x = 1" ++ nl
  /\ mergePasteIntoBlock ed info "P" <> "P" ++ getBlockText ed info.
Proof. repeat split; discriminate. Qed.

Lemma slice_empty (a : nat) (s : string) : Str.slice a a s = "".
Proof. unfold Str.slice; now rewrite Nat.sub_diag. Qed.

Example merge_ex :
  mergePasteIntoBlock
    (select proseThenFence {| line := 0; ch := 1 |} {| line := 2; ch := 2 |})
    {| inside := true; lang := Some "python"; startLine := 1; endLine := 3 |}
    "P"
  = "P= 1" ++ nl.
Proof. reflexivity. Qed.

(** ** The formatter process *)

Lemma fold_data (input : string) (events : list ChildEvent) :
  forallb isData events = true ->
  forall st,
    fold_left (onChildEvent input) events st
    = {| out := fold_left
                  (fun acc ev => match ev with StdoutData d => acc ++ d | _ => acc end)
                  events (out st);
         err := fold_left
                  (fun acc ev => match ev with StderrData d => acc ++ d | _ => acc end)
                  events (err st);
         settled := settled st |}.
Proof.
  induction events as [|ev events IH]; intros Hall st; simpl.
  - now destruct st.
  - simpl in Hall; apply andb_true_iff in Hall as [Hev Hall].
    destruct ev; try discriminate; rewrite IH by assumption; reflexivity.
Qed.

Lemma settled_stays (input : string) (events : list ChildEvent) :
  forall st r,
    settled st = Some r ->
    settled (fold_left (onChildEvent input) events st) = Some r.
Proof.
  induction events as [|ev events IH]; intros st r Hs; simpl; trivial.
  apply IH.
  destruct ev as [d | d | e | code]; simpl; trivial;
    unfold settle; try destruct (isZero code); rewrite Hs; trivial.
Qed.

Lemma runFormatterOn_close (input : string) (datas rest : list ChildEvent)
    (code : option Z) :
  forallb isData datas = true ->
  runFormatterOn (datas ++ CloseEvent code :: rest) input
  = Some (if isZero code then Resolved (orElse (stdoutOf datas) input)
          else Rejected (FormatterError
                 (orElse (stderrOf datas)
                    ("Formatter exited with code " ++ showCode code)))).
Proof.
  intros Hall; unfold runFormatterOn.
  rewrite fold_left_app, (fold_data input datas Hall); simpl.
  apply settled_stays.
  unfold stdoutOf, stderrOf; destruct (isZero code); reflexivity.
Qed.

Lemma isZero_iff (code : option Z) : isZero code = true <-> code = Some 0%Z.
Proof.
  destruct code as [n|]; simpl; [|split; discriminate].
  rewrite Z.eqb_eq; split; congruence.
Qed.

Lemma orElse_nonempty (a b : string) : a <> "" -> orElse a b = a.
Proof. destruct a; [contradiction | reflexivity]. Qed.

(** On chunks that are already decoded: when the process emits only
    output data and then closes, the promise settles with the collected
    standard output if the exit status is 0 and that output is not empty;
    with the input itself if the status is 0 and the output is empty; and
    otherwise with a failure carrying the collected standard error, or
    the message naming the exit status when standard error is empty. *)
Theorem runFormatter_outcome
    (spawn : string -> list string -> string -> list ChildEvent)
    (cmd : string) (args : list string) (input : string)
    (datas rest : list ChildEvent) (code : option Z) :
  spawn cmd args input = (datas ++ CloseEvent code :: rest)%list ->
  forallb isData datas = true ->
  runFormatter spawn cmd args input
  = Some match code with
         | Some 0%Z =>
             Resolved (if (stdoutOf datas =? "")%string then input
                       else stdoutOf datas)
         | _ =>
             Rejected (FormatterError
               (if (stderrOf datas =? "")%string
                then "Formatter exited with code " ++ showCode code
                else stderrOf datas))
         end.
Proof.
  intros Hspawn Hall; unfold runFormatter; rewrite Hspawn.
  rewrite (runFormatterOn_close input datas rest code Hall); f_equal.
  assert (Hor : forall a b, orElse a b = if (a =? "")%string then b else a)
    by (intros [|c a] b; reflexivity).
  rewrite !Hor.
  destruct code as [[|n|n]|]; reflexivity.
Qed.

Lemma runFormatter_outcome_witness :
  runFormatter brokenFormatter "ruff" ["format"] "x=1"
  = Some (Rejected (FormatterError "error: invalid syntax")).
Proof.
  apply (runFormatter_outcome brokenFormatter "ruff" ["format"] "x=1"
           [StderrData "error: "; StderrData "invalid syntax"] []
           (Some 123%Z));
    reflexivity.
Defined.

Example runFormatter_ex :
  runFormatter tidyFormatter "ruff" [] "x=1" = Some (Resolved ("x = 1" ++ nl))
  /\ runFormatter brokenFormatter "ruff" [] "x=1"
     = Some (Rejected (FormatterError "error: invalid syntax"))
  /\ runFormatter missingFormatter "ruff" [] "x=1"
     = Some (Rejected (SpawnError "spawn ruff ENOENT"))
  /\ runFormatter (fun _ _ _ => [CloseEvent (Some 2%Z)]) "ruff" [] "x=1"
     = Some (Rejected (FormatterError "Formatter exited with code 2"))
  /\ runFormatter (fun _ _ _ => [CloseEvent (Some 0%Z)]) "ruff" [] "x=1"
     = Some (Resolved "x=1").
Proof. repeat split. Qed.

(** ** The paste listener *)

Lemma formatCall_fst_snd
    (spawn : string -> list string -> string -> list ChildEvent)
    (p : Plugin) (code cmd : string) (args : list string) (input : string) :
  spawnEffect p code = SpawnFormatter cmd args input ->
  formatText spawn p code = runFormatter spawn cmd args input.
Proof.
  unfold spawnEffect, formatText; destruct (formatCall p) as [c a].
  now intros [= -> -> ->].
Qed.

(** Splits the goal along every test the listener makes. *)
Ltac listener_cases :=
  repeat match goal with
         | |- context [match ?x with _ => _ end] => destruct x eqn:?
         end.

(** C7: in block mode, when the listener has invoked the formatter and the
    invocation fails, whether the process could not be spawned or exited
    with a failure, the listener claims the event, logs, and replaces the
    selection with the pasted text as it was; no block replacement takes
    place. *)
Theorem block_paste_failure
    (spawn : string -> list string -> string -> list ChildEvent)
    (p : Plugin) (evt : PasteEvent) (ed : Editor)
    (cmd : string) (args : list string) (input : string) (e : Failure) :
  scope (settings p) = BlockScope ->
  In (SpawnFormatter cmd args input) (effects (editorPaste spawn p evt ed)) ->
  runFormatter spawn cmd args input = Some (Rejected e) ->
  exists text,
    clipboardText evt = Some text
    /\ effects (editorPaste spawn p evt ed)
       = [PreventDefault; SpawnFormatter cmd args input; ConsoleError;
          ReplaceSelection text]
    /\ buffer (editorPaste spawn p evt ed) = replaceSelection ed text
    /\ replacedBlock (editorPaste spawn p evt ed) = false.
Proof.
  intros Hscope; unfold editorPaste, ignored, replacedBlock.
  cbn [settings withLastPasteAt]; rewrite Hscope.
  listener_cases; cbn [effects buffer In];
    intros Hin Hrun; try contradiction;
    repeat (destruct Hin as [Hin | Hin]; try discriminate; try contradiction).
  all: pose proof (formatCall_fst_snd spawn _ _ _ _ _ Hin) as Hfmt;
       try congruence.
  eexists; split; [reflexivity|].
  rewrite Hin; repeat split.
Qed.

Lemma block_paste_failure_witness :
  exists text,
    clipboardText (pasteAt 1000 "y=2") = Some text
    /\ effects (editorPaste brokenFormatter plugin0 (pasteAt 1000 "y=2")
                  (cursorAt proseThenFence 2 5))
       = [PreventDefault;
          SpawnFormatter "ruff"
            ["format"; "--stdin-filename"; "pasted.py"; "--line-length"; "88"; "-"]
            ("x = 1y=2" ++ nl);
          ConsoleError; ReplaceSelection text]
    /\ buffer (editorPaste brokenFormatter plugin0 (pasteAt 1000 "y=2")
                 (cursorAt proseThenFence 2 5))
       = replaceSelection (cursorAt proseThenFence 2 5) text
    /\ replacedBlock (editorPaste brokenFormatter plugin0 (pasteAt 1000 "y=2")
                        (cursorAt proseThenFence 2 5)) = false.
Proof.
  apply (block_paste_failure brokenFormatter plugin0 (pasteAt 1000 "y=2")
           (cursorAt proseThenFence 2 5) "ruff"
           ["format"; "--stdin-filename"; "pasted.py"; "--line-length"; "88"; "-"]
           ("x = 1y=2" ++ nl) (FormatterError "error: invalid syntax")).
  - reflexivity.
  - vm_compute; right; left; reflexivity.
  - reflexivity.
Defined.

Example block_paste_ex :
  buffer (editorPaste tidyFormatter plugin0 (pasteAt 1000 "y=2")
            (cursorAt proseThenFence 2 5))
  = "abc" ++ nl ++ "```python" ++ nl ++ "x = 1" ++ nl ++ "```"
  /\ buffer (editorPaste missingFormatter plugin0 (pasteAt 1000 "y=2")
               (cursorAt proseThenFence 2 5))
     = "abc" ++ nl ++ "```python" ++ nl ++ "x = 1y=2" ++ nl ++ "```"
  /\ effects (editorPaste tidyFormatter plugin0 (pasteAt 1000 "y=2")
                (cursorAt twoFences 3 0)) = [].
Proof. repeat split. Qed.

(** C10: a paste whose plain-text payload is the empty string is treated
    as one without payload: the listener does the same in both cases,
    does not prevent the default action, starts no formatter and leaves
    the buffer to the host's default paste. *)
Theorem empty_clipboard_ignored
    (spawn : string -> list string -> string -> list ChildEvent)
    (p : Plugin) (evt : PasteEvent) (ed : Editor) :
  editorPaste spawn p (withClipboard evt (Some "")) ed
  = editorPaste spawn p (withClipboard evt None) ed
  /\ prevented (editorPaste spawn p (withClipboard evt (Some "")) ed) = false
  /\ spawned (editorPaste spawn p (withClipboard evt (Some "")) ed) = false
  /\ buffer (editorPaste spawn p (withClipboard evt (Some "")) ed) = value ed.
Proof.
  unfold editorPaste, ignored, prevented, spawned.
  cbn [withClipboard now defaultPrevented viewIsMarkdown clipboardText].
  listener_cases; repeat split.
Qed.

(** C3, counterexample: a paste at time 1000 with the cursor on the prose
    line before the fence is suppressed for ineligibility, yet it moves the
    timestamp from 0 to 1000; the eligible paste that follows at time 1100
    is then dropped by the debounce test, although the same paste is
    intercepted when the timestamp is still 0. *)
Lemma ineligible_paste_resets_timestamp :
  let r1 := editorPaste tidyFormatter plugin0 (pasteAt 1000 "y=2")
              (cursorAt proseThenFence 0 1) in
  findFenceInfo (cursorAt proseThenFence 0 1) {| line := 0; ch := 1 |}
  = Some noFence
  /\ effects r1 = []
  /\ lastPasteAt plugin0 = 0%Z
  /\ lastPasteAt (plugin r1) = 1000%Z
  /\ prevented (editorPaste tidyFormatter (plugin r1) (pasteAt 1100 "y=2")
                  (cursorAt proseThenFence 2 5)) = false
  /\ prevented (editorPaste tidyFormatter plugin0 (pasteAt 1100 "y=2")
                  (cursorAt proseThenFence 2 5)) = true.
Proof. repeat split. Qed.

Lemma editorPaste_plugin
    (spawn : string -> list string -> string -> list ChildEvent)
    (p : Plugin) (evt : PasteEvent) (ed : Editor) :
  plugin (editorPaste spawn p evt ed)
  = if (now evt - lastPasteAt p <? 250)%Z then p
    else withLastPasteAt p (now evt).
Proof.
  unfold editorPaste, ignored; listener_cases; reflexivity.
Qed.

(** C3, as amended: a paste event that arrives 250 ms or more after the
    stored timestamp sets the timestamp to its own time, before any
    eligibility test and whether or not the paste is then intercepted; a
    second event less than 250 ms after it is left to the default paste:
    the listener does nothing and the timestamp stays at the time of the
    first event. *)
Theorem debounce_window
    (spawn : string -> list string -> string -> list ChildEvent)
    (p : Plugin) (e1 e2 : PasteEvent) (ed1 ed2 : Editor) :
  (250 <= now e1 - lastPasteAt p)%Z ->
  (now e2 - now e1 < 250)%Z ->
  plugin (editorPaste spawn p e1 ed1) = withLastPasteAt p (now e1)
  /\ editorPaste spawn (plugin (editorPaste spawn p e1 ed1)) e2 ed2
     = ignored (withLastPasteAt p (now e1)) ed2.
Proof.
  intros H1 H2.
  assert (E : plugin (editorPaste spawn p e1 ed1) = withLastPasteAt p (now e1)).
  { rewrite editorPaste_plugin.
    destruct (Z.ltb_spec (now e1 - lastPasteAt p) 250); [lia | reflexivity]. }
  split; trivial.
  rewrite E; unfold editorPaste at 1.
  cbn [lastPasteAt withLastPasteAt].
  destruct (Z.ltb_spec (now e2 - now e1) 250); [reflexivity | lia].
Qed.

Lemma debounce_window_witness :
  plugin (editorPaste tidyFormatter plugin0 (pasteAt 1100 "y=2")
            (cursorAt proseThenFence 0 1))
  = withLastPasteAt plugin0 1100
  /\ editorPaste tidyFormatter
       (plugin (editorPaste tidyFormatter plugin0 (pasteAt 1100 "y=2")
                  (cursorAt proseThenFence 0 1)))
       (pasteAt 1200 "z=3") (cursorAt proseThenFence 2 5)
     = ignored (withLastPasteAt plugin0 1100) (cursorAt proseThenFence 2 5).
Proof.
  apply (debounce_window tidyFormatter plugin0 (pasteAt 1100 "y=2")
           (pasteAt 1200 "z=3") (cursorAt proseThenFence 0 1)
           (cursorAt proseThenFence 2 5));
    vm_compute; congruence.
Defined.

(** * Further properties of the code *)

(** ** More on slices *)

Lemma append_assoc (a b c : string) : (a ++ b) ++ c = a ++ b ++ c.
Proof. induction a as [|x a IH]; simpl; [trivial | now rewrite IH]. Qed.

Lemma append_empty_r (a : string) : a ++ "" = a.
Proof. induction a as [|x a IH]; simpl; [trivial | now rewrite IH]. Qed.

Lemma take_slice (a b : nat) (s : string) :
  a <= b -> Str.take a s ++ Str.slice a b s = Str.take b s.
Proof.
  unfold Str.slice; revert b s; induction a as [|a IH]; intros b s Hab; simpl.
  - now rewrite Nat.sub_0_r.
  - destruct b as [|b]; [lia|].
    destruct s as [|c r]; simpl; [now destruct (b - a)|].
    rewrite IH by lia; trivial.
Qed.

Lemma slice_drop (b c : nat) (s : string) :
  b <= c -> Str.slice b c s ++ Str.drop c s = Str.drop b s.
Proof.
  intros Hbc; unfold Str.slice.
  replace (Str.drop c s) with (Str.drop (c - b) (Str.drop b s))
    by (rewrite drop_drop; f_equal; lia).
  apply take_drop.
Qed.

Lemma slice_slice (a b c : nat) (s : string) :
  a <= b -> b <= c -> Str.slice a b s ++ Str.slice b c s = Str.slice a c s.
Proof.
  intros Hab Hbc; unfold Str.slice.
  replace (Str.drop b s) with (Str.drop (b - a) (Str.drop a s))
    by (rewrite drop_drop; f_equal; lia).
  rewrite <- (take_slice (b - a) (c - a) (Str.drop a s)) by lia.
  unfold Str.slice; do 2 f_equal; lia.
Qed.

(** Writing [l ++ text ++ r] over the span from [a] to [b], where [l] and
    [r] are what the span holds before [f] and after [t], is writing
    [text] over the span from [f] to [t]. *)
Lemma splice_paste (s text : string) (a f t b : nat) :
  a <= f -> t <= b ->
  Str.take a s ++ (Str.slice a f s ++ text ++ Str.slice t b s) ++ Str.drop b s
  = Str.take f s ++ text ++ Str.drop t s.
Proof.
  intros Haf Htb.
  rewrite !append_assoc, <- (append_assoc (Str.take a s)), take_slice by lia.
  now rewrite slice_drop by lia.
Qed.

(** ** The process, whatever it emits *)

(** Every trace is either data only, or data up to a first [error] or
    [close] event. *)
Lemma trace_split (events : list ChildEvent) :
  forallb isData events = true
  \/ exists datas ev rest,
       events = (datas ++ ev :: rest)%list
       /\ forallb isData datas = true /\ isData ev = false.
Proof.
  induction events as [|ev events IH]; [now left|].
  destruct (isData ev) eqn:Ed.
  - destruct IH as [Hall | (datas & ev' & rest & -> & Hall & Hev)].
    + left; simpl; now rewrite Ed.
    + right; exists (ev :: datas), ev', rest; simpl; rewrite Ed; auto.
  - right; exists [], ev, events; auto.
Qed.

Lemma runFormatterOn_data (input : string) (events : list ChildEvent) :
  forallb isData events = true -> runFormatterOn events input = None.
Proof.
  intros Hall; unfold runFormatterOn; now rewrite (fold_data input events Hall).
Qed.

Lemma runFormatterOn_error (input cause : string) (datas rest : list ChildEvent) :
  forallb isData datas = true ->
  runFormatterOn (datas ++ ErrorEvent cause :: rest) input
  = Some (Rejected (SpawnError cause)).
Proof.
  intros Hall; unfold runFormatterOn.
  rewrite fold_left_app, (fold_data input datas Hall); simpl.
  now apply settled_stays.
Qed.

(** X1: the promise of [runFormatter] stays pending exactly when the
    process emits neither an [error] nor a [close] event. *)
Theorem runFormatter_pending_iff
    (spawn : string -> list string -> string -> list ChildEvent)
    (cmd : string) (args : list string) (input : string) :
  runFormatter spawn cmd args input = None
  <-> forallb isData (spawn cmd args input) = true.
Proof.
  unfold runFormatter; split; [|apply runFormatterOn_data].
  destruct (trace_split (spawn cmd args input))
    as [Hall | (datas & ev & rest & -> & Hall & Hev)]; trivial.
  destruct ev as [d | d | cause | code]; try discriminate.
  - now rewrite runFormatterOn_error.
  - now rewrite runFormatterOn_close.
Qed.

(** X2: when the first event that is not output data is [error], the
    promise is rejected with that error's cause, whatever was written to
    the output streams before and whatever is emitted after, a [close]
    with status 0 included. *)
Theorem runFormatter_spawn_error
    (spawn : string -> list string -> string -> list ChildEvent)
    (cmd : string) (args : list string) (input cause : string)
    (datas rest : list ChildEvent) :
  spawn cmd args input = (datas ++ ErrorEvent cause :: rest)%list ->
  forallb isData datas = true ->
  runFormatter spawn cmd args input = Some (Rejected (SpawnError cause)).
Proof.
  intros Hspawn Hall; unfold runFormatter; rewrite Hspawn.
  now apply runFormatterOn_error.
Qed.

Lemma runFormatter_spawn_error_witness :
  runFormatter
    (fun _ _ _ => [StdoutData "x"; ErrorEvent "ENOENT"; CloseEvent (Some 0%Z)])
    "ruff" [] "y"
  = Some (Rejected (SpawnError "ENOENT")).
Proof.
  apply (runFormatter_spawn_error
           (fun _ _ _ => [StdoutData "x"; ErrorEvent "ENOENT"; CloseEvent (Some 0%Z)])
           "ruff" [] "y" "ENOENT" [StdoutData "x"] [CloseEvent (Some 0%Z)]);
    reflexivity.
Defined.

(** X3: [runFormatter] never resolves with the empty string for an input
    that is not empty, whatever the process does. *)
Theorem runFormatter_resolved_nonempty
    (spawn : string -> list string -> string -> list ChildEvent)
    (cmd : string) (args : list string) (input text : string) :
  runFormatter spawn cmd args input = Some (Resolved text) ->
  input <> "" -> text <> "".
Proof.
  unfold runFormatter.
  destruct (trace_split (spawn cmd args input))
    as [Hall | (datas & ev & rest & -> & Hall & Hev)].
  - now rewrite runFormatterOn_data.
  - destruct ev as [d | d | cause | code]; try discriminate.
    + now rewrite runFormatterOn_error.
    + rewrite runFormatterOn_close by assumption.
      destruct (isZero code); [|discriminate].
      intros [= <-] Hin.
      destruct (stdoutOf datas); simpl; [assumption | discriminate].
Qed.

Lemma runFormatter_resolved_nonempty_witness : "x=1" <> "".
Proof.
  apply (runFormatter_resolved_nonempty silentFormatter "ruff" [] "x=1" "x=1");
    [reflexivity | discriminate].
Defined.

(** ** What a returned [FenceInfo] stands for *)

Lemma getLine_none (ed : Editor) (i : Z) :
  (lineCount ed <= i)%Z -> getLine ed i = None.
Proof.
  intros H; destruct (getLine ed i) eqn:E; trivial.
  apply getLine_range in E; lia.
Qed.

Lemma scanOpen_raises (ed : Editor) (i : nat) :
  (lineCount ed <= Z.of_nat i)%Z -> scanOpen ed i = None.
Proof.
  intros H; destruct i; cbn [scanOpen]; now rewrite getLine_none.
Qed.

(** Whatever [findFenceInfo] returns is accounted for by [locates]. *)
Lemma findFenceInfo_some (ed : Editor) (pos : EditorPosition) (fi : FenceInfo) :
  findFenceInfo ed pos = Some fi ->
  fi = noFence \/ ((0 <= line pos < lineCount ed)%Z /\ locates ed (line pos) fi).
Proof.
  intros E.
  destruct (Z.lt_ge_cases (line pos) 0) as [Hneg | Hnn].
  - left; unfold findFenceInfo in E.
    destruct (Z.ltb_spec (line pos) 0); [|lia].
    cbn in E; congruence.
  - destruct (Z.lt_ge_cases (line pos) (lineCount ed)) as [Hin | Hout].
    + right; split; [lia|].
      destruct (findFenceInfo_locates ed pos) as (fi' & E' & Hloc); [lia|].
      congruence.
    + unfold findFenceInfo in E.
      destruct (Z.ltb_spec (line pos) 0); [lia|].
      rewrite scanOpen_raises in E by lia; discriminate.
Qed.

(** X4: whenever [findFenceInfo] returns something else than the marker,
    [startLine] is the nearest delimiter line at or before the cursor,
    [endLine] is the first delimiter line after [startLine] and lies in
    the buffer, and [lang] is read off line [startLine]. *)
Theorem findFenceInfo_delimiters (ed : Editor) (pos : EditorPosition)
    (fi : FenceInfo) :
  findFenceInfo ed pos = Some fi -> fi <> noFence ->
  openAt ed (line pos) (startLine fi)
  /\ closeAt ed (startLine fi) (endLine fi)
  /\ (endLine fi < lineCount ed)%Z
  /\ (exists lo, getLine ed (startLine fi) = Some lo
                 /\ lang fi = extractFenceLang lo)
  /\ (inside fi = true <-> (startLine fi < line pos < endLine fi)%Z).
Proof.
  intros E Hne.
  destruct (findFenceInfo_some ed pos fi E) as [-> | [_ Hloc]]; [contradiction|].
  destruct Hloc as [Hn | o Ho Hn | o c lo Ho Hc Hlo]; try contradiction.
  cbn [startLine endLine lang inside].
  split; [trivial|]; split; [trivial|].
  split; [destruct Hc as (_ & Hf & _); now apply fenceLine_range in Hf|].
  split; [eauto | apply inside_of_delimiters].
Qed.

Lemma findFenceInfo_delimiters_witness :
  openAt (cursorAt twoFences 5 0) 5 4
  /\ closeAt (cursorAt twoFences 5 0) 4 6
  /\ (6 < lineCount (cursorAt twoFences 5 0))%Z
  /\ (exists lo, getLine (cursorAt twoFences 5 0) 4 = Some lo
                 /\ Some "py" = extractFenceLang lo)
  /\ (true = true <-> (4 < 5 < 6)%Z).
Proof.
  apply (findFenceInfo_delimiters (cursorAt twoFences 5 0) {| line := 5; ch := 0 |}
           {| inside := true; lang := Some "py"; startLine := 4; endLine := 6 |});
    [reflexivity | discriminate].
Defined.

(** ** The tag, whatever the line *)

Lemma span_spec (p : ascii -> bool) (s : string) :
  s = fst (Str.span p s) ++ snd (Str.span p s)
  /\ allChars p (fst (Str.span p s)) = true.
Proof.
  induction s as [|c r [IH1 IH2]]; simpl; [auto|].
  destruct (p c) eqn:Pc; [|auto].
  destruct (Str.span p r) as [a b]; simpl in *.
  rewrite Pc, IH2; split; [congruence | trivial].
Qed.

Lemma backticks_fence (ticks rest : string) :
  allChars isBacktick ticks = true -> 3 <= String.length ticks ->
  isFence (ticks ++ rest) = true.
Proof.
  intros Hall Hlen.
  destruct ticks as [|a [|b [|c t]]]; simpl in Hlen; try lia.
  simpl in Hall; repeat (apply andb_true_iff in Hall as [? Hall]).
  repeat match goal with
         | H : isBacktick _ = true |- _ => apply Ascii.eqb_eq in H; subst
         end.
  unfold isFence, Str.startsWith; simpl.
  now destruct (t ++ rest).
Qed.

(** X5: a tag returned by [extractFenceLang] is never empty and holds no
    white space, backtick or opening brace, and is returned only for a
    line that begins with a triple backtick once trimmed. *)
Theorem extractFenceLang_some (fenceLine : string) (tag : string) :
  extractFenceLang fenceLine = Some tag ->
  tag <> ""
  /\ allChars isTagChar tag = true
  /\ isFence (Str.trim fenceLine) = true.
Proof.
  unfold extractFenceLang.
  pose proof (span_spec isBacktick (Str.trim fenceLine)) as [Hsplit Hticks].
  destruct (Str.span isBacktick (Str.trim fenceLine)) as [ticks rest].
  simpl in Hsplit, Hticks.
  destruct (Nat.ltb_spec (String.length ticks) 3); [discriminate|].
  destruct (Str.span Str.isSpace rest) as [sp rest'].
  pose proof (span_spec isTagChar rest') as [_ Htag].
  destruct (Str.span isTagChar rest') as [tag' tail]; simpl in Htag.
  destruct tag' as [|c t]; [discriminate|].
  intros [= <-]; split; [discriminate|]; split; [assumption|].
  rewrite Hsplit; now apply backticks_fence.
Qed.

Lemma extractFenceLang_some_witness :
  "Py3" <> ""
  /\ allChars isTagChar "Py3" = true
  /\ isFence (Str.trim "  ```` Py3 {.numberLines}") = true.
Proof.
  apply (extractFenceLang_some "  ```` Py3 {.numberLines}" "Py3"); reflexivity.
Defined.

(** ** The selection and the merge *)

Lemma offsetAt_col_le (ls : list string) (l c c' : nat) :
  c <= c' -> offsetAt ls l c <= offsetAt ls l c'.
Proof.
  intros Hc; revert l; induction ls as [|x rest IH]; intros l; simpl; [lia|].
  destruct l as [|l]; [lia|].
  destruct rest as [|y rest']; [lia|].
  specialize (IH l); lia.
Qed.

Lemma posToOffset_mono (ed : Editor) (p q : EditorPosition) :
  posLeb p q = true -> posToOffset ed p <= posToOffset ed q.
Proof.
  unfold posLeb, posToOffset; intros H.
  apply orb_true_iff in H as [H | H].
  - apply Z.ltb_lt in H.
    destruct (Z.ltb_spec (line p) 0); [lia|].
    destruct (Z.ltb_spec (line q) 0); [lia|].
    etransitivity; [apply (offsetAt_line_lt _ _ (Z.to_nat (line q))); lia|].
    apply offsetAt_col_le; lia.
  - apply andb_true_iff in H as [Hl Hc].
    apply Z.eqb_eq in Hl; apply Z.leb_le in Hc; rewrite Hl.
    destruct (Z.ltb_spec (line q) 0); [lia|].
    apply offsetAt_col_le; lia.
Qed.

Lemma posLeb_total (p q : EditorPosition) :
  posLeb p q = false -> posLeb q p = true.
Proof.
  unfold posLeb; intros H.
  apply orb_false_iff in H as [H1 H2]; apply Z.ltb_ge in H1.
  apply andb_false_iff in H2.
  apply orb_true_iff.
  destruct (Z.eq_dec (line p) (line q)) as [E | N].
  - right; rewrite E, Z.eqb_refl; simpl.
    destruct H2 as [H2 | H2]; [apply Z.eqb_neq in H2; lia|].
    apply Z.leb_gt in H2; apply Z.leb_le; lia.
  - left; apply Z.ltb_lt; lia.
Qed.

(** The start of the selection is not after its end. *)
Lemma selection_ordered (ed : Editor) :
  posToOffset ed (getCursor ed From) <= posToOffset ed (getCursor ed To).
Proof.
  unfold getCursor; destruct (posLeb (anchor ed) (head ed)) eqn:E.
  - now apply posToOffset_mono.
  - now apply posToOffset_mono, posLeb_total.
Qed.

(** X6: for a selection that lies on content lines of the block, the
    block content is the block's text before the selection start, then
    the selected text, then the block's text after the selection end; and
    the merge is the first of these, the pasted text, and the last: the
    paste takes the place of exactly the selected text. *)
Theorem mergePasteIntoBlock_splice (ed : Editor) (info : FenceInfo)
    (pasted : string) :
  (startLine info < line (getCursor ed From))%Z ->
  (line (getCursor ed To) < endLine info)%Z ->
  getBlockText ed info
  = getRange ed (blockStart info) (getCursor ed From)
    ++ getRange ed (getCursor ed From) (getCursor ed To)
    ++ getRange ed (getCursor ed To) (blockEnd info)
  /\ mergePasteIntoBlock ed info pasted
     = getRange ed (blockStart info) (getCursor ed From)
       ++ pasted
       ++ getRange ed (getCursor ed To) (blockEnd info).
Proof.
  intros Hfrom Hto; split.
  - unfold getBlockText, getRange.
    rewrite (slice_slice (posToOffset ed (getCursor ed From)));
      [|apply selection_ordered
       |apply posToOffset_line_lt; [assumption | reflexivity]].
    rewrite slice_slice; [reflexivity | |].
    + apply posToOffset_col0_le; cbn [blockStart line ch]; lia.
    + etransitivity; [apply selection_ordered|].
      apply posToOffset_line_lt; [assumption | reflexivity].
  - unfold mergePasteIntoBlock, safeFrom, safeTo.
    destruct (Z.leb_spec (line (getCursor ed From)) (startLine info)); [lia|].
    destruct (Z.geb_spec (line (getCursor ed To)) (endLine info)); [lia|].
    reflexivity.
Qed.

Lemma mergePasteIntoBlock_splice_witness :
  let ed := select proseThenFence {| line := 2; ch := 4 |} {| line := 2; ch := 2 |} in
  let info := {| inside := true; lang := Some "python";
                 startLine := 1; endLine := 3 |} in
  getBlockText ed info
  = getRange ed (blockStart info) (getCursor ed From)
    ++ getRange ed (getCursor ed From) (getCursor ed To)
    ++ getRange ed (getCursor ed To) (blockEnd info)
  /\ mergePasteIntoBlock ed info "+"
     = getRange ed (blockStart info) (getCursor ed From)
       ++ "+"
       ++ getRange ed (getCursor ed To) (blockEnd info).
Proof.
  apply (mergePasteIntoBlock_splice
           (select proseThenFence {| line := 2; ch := 4 |} {| line := 2; ch := 2 |})
           {| inside := true; lang := Some "python";
              startLine := 1; endLine := 3 |} "+");
    vm_compute; reflexivity.
Defined.

Example splice_ex :
  let ed := select proseThenFence {| line := 2; ch := 4 |} {| line := 2; ch := 2 |} in
  let info := {| inside := true; lang := Some "python";
                 startLine := 1; endLine := 3 |} in
  getRange ed (blockStart info) (getCursor ed From) = "x "
  /\ getRange ed (getCursor ed From) (getCursor ed To) = "= "
  /\ getRange ed (getCursor ed To) (blockEnd info) = "1" ++ nl
  /\ mergePasteIntoBlock ed info "+" = "x +1" ++ nl.
Proof. repeat split. Qed.

(** X7: a selection that starts at or before the opening delimiter line
    and ends at or after the closing delimiter line covers the block: the
    merge is the pasted text alone. *)
Theorem mergePasteIntoBlock_whole_block (ed : Editor) (info : FenceInfo)
    (pasted : string) :
  (line (getCursor ed From) <= startLine info)%Z ->
  (endLine info <= line (getCursor ed To))%Z ->
  mergePasteIntoBlock ed info pasted = pasted.
Proof.
  intros Hfrom Hto; unfold mergePasteIntoBlock, safeFrom, safeTo, getRange.
  destruct (Z.leb_spec (line (getCursor ed From)) (startLine info)); [|lia].
  destruct (Z.geb_spec (line (getCursor ed To)) (endLine info)); [|lia].
  rewrite !slice_empty; apply append_empty_r.
Qed.

Lemma mergePasteIntoBlock_whole_block_witness :
  mergePasteIntoBlock
    (select proseThenFence {| line := 0; ch := 2 |} {| line := 3; ch := 1 |})
    {| inside := true; lang := Some "python"; startLine := 1; endLine := 3 |}
    "y = 2"
  = "y = 2".
Proof.
  apply (mergePasteIntoBlock_whole_block
           (select proseThenFence {| line := 0; ch := 2 |} {| line := 3; ch := 1 |})
           {| inside := true; lang := Some "python";
              startLine := 1; endLine := 3 |} "y = 2");
    vm_compute; discriminate.
Defined.

(** X8: for a selection that lies on content lines of the block, writing
    the merge into the block gives the very buffer that replacing the
    selection by the pasted text gives. *)
Theorem replaceBlock_merge (ed : Editor) (info : FenceInfo) (pasted : string) :
  (startLine info < line (getCursor ed From))%Z ->
  (line (getCursor ed To) < endLine info)%Z ->
  replaceBlock ed info (mergePasteIntoBlock ed info pasted)
  = replaceSelection ed pasted.
Proof.
  intros Hfrom Hto.
  unfold replaceBlock, replaceSelection, replaceRange, mergePasteIntoBlock,
    safeFrom, safeTo, getRange.
  destruct (Z.leb_spec (line (getCursor ed From)) (startLine info)); [lia|].
  destruct (Z.geb_spec (line (getCursor ed To)) (endLine info)); [lia|].
  apply splice_paste.
  - apply posToOffset_col0_le; cbn [blockStart line ch]; lia.
  - apply posToOffset_line_lt; [assumption | reflexivity].
Qed.

Lemma replaceBlock_merge_witness :
  replaceBlock
    (select proseThenFence {| line := 2; ch := 4 |} {| line := 2; ch := 2 |})
    {| inside := true; lang := Some "python"; startLine := 1; endLine := 3 |}
    (mergePasteIntoBlock
       (select proseThenFence {| line := 2; ch := 4 |} {| line := 2; ch := 2 |})
       {| inside := true; lang := Some "python"; startLine := 1; endLine := 3 |}
       "+")
  = replaceSelection
      (select proseThenFence {| line := 2; ch := 4 |} {| line := 2; ch := 2 |})
      "+".
Proof.
  apply (replaceBlock_merge
           (select proseThenFence {| line := 2; ch := 4 |} {| line := 2; ch := 2 |})
           {| inside := true; lang := Some "python";
              startLine := 1; endLine := 3 |} "+");
    vm_compute; reflexivity.
Defined.

(** ** The paste listener, case by case *)

Lemma spawnEffect_spawn (p : Plugin) (code : string) :
  exists cmd args, spawnEffect p code = SpawnFormatter cmd args code.
Proof.
  unfold spawnEffect; destruct (formatCall p) as [cmd args]; eauto.
Qed.

Lemma inside_range (ed : Editor) (pos : EditorPosition) (info : FenceInfo) :
  findFenceInfo ed pos = Some info -> inside info = true ->
  (startLine info < line pos < endLine info)%Z.
Proof.
  intros E Hin.
  destruct (findFenceInfo_some ed pos info E) as [-> | [_ Hloc]]; [discriminate|].
  destruct Hloc as [Hn | o Ho Hn | o c lo Ho Hc Hlo]; try discriminate.
  now apply inside_of_delimiters.
Qed.

(** X9: the listener claims a paste event exactly when the event comes
    250 ms or more after the stored timestamp, the plugin is enabled, the
    event is not already handled, the view is a Markdown view, the cursor
    is inside a fence whose tag is a Python tag, and the clipboard holds a
    non-empty text; and it starts the formatter exactly when it claims the
    event. *)
Theorem editorPaste_intercepts_iff
    (spawn : string -> list string -> string -> list ChildEvent)
    (p : Plugin) (evt : PasteEvent) (ed : Editor) :
  (prevented (editorPaste spawn p evt ed) = true <->
   (250 <= now evt - lastPasteAt p)%Z
   /\ enabled (settings p) = true
   /\ defaultPrevented evt = false
   /\ viewIsMarkdown evt = true
   /\ (exists info, findFenceInfo ed (getCursor ed Head) = Some info
                    /\ inside info = true
                    /\ isPythonLang (lang info) = true)
   /\ (exists text, clipboardText evt = Some text /\ text <> ""))
  /\ spawned (editorPaste spawn p evt ed) = prevented (editorPaste spawn p evt ed).
Proof.
  unfold editorPaste, ignored, prevented, spawned.
  cbn [settings withLastPasteAt].
  destruct (Z.ltb_spec (now evt - lastPasteAt p) 250) as [Hd | Hd];
    [split; [split; [discriminate | intros (? & _); lia] | reflexivity]|].
  destruct (enabled (settings p));
    [|split; [split; [discriminate | intros (_ & ? & _); discriminate]
             | reflexivity]].
  destruct (defaultPrevented evt);
    [split; [split; [discriminate | intros (_ & _ & ? & _); discriminate]
            | reflexivity]|].
  destruct (viewIsMarkdown evt);
    [|split; [split; [discriminate | intros (_ & _ & _ & ? & _); discriminate]
             | reflexivity]].
  cbn [negb].
  destruct (findFenceInfo ed (getCursor ed Head)) as [info|];
    [|split; [split; [discriminate
                     | intros (_ & _ & _ & _ & (? & ? & _) & _); discriminate]
             | reflexivity]].
  destruct (inside info) eqn:Hin;
    [|split; [split; [discriminate
                     | intros (_ & _ & _ & _ & (? & [= <-] & ? & _) & _);
                       congruence]
             | reflexivity]].
  destruct (isPythonLang (lang info)) eqn:Hpy;
    [|split; [split; [discriminate
                     | intros (_ & _ & _ & _ & (? & [= <-] & _ & ?) & _);
                       congruence]
             | reflexivity]].
  cbn [negb orb].
  destruct (clipboardText evt) as [[|c t]|];
    [split; [split; [discriminate
                    | intros (_ & _ & _ & _ & _ & (? & [= <-] & ?));
                      contradiction]
            | reflexivity]
    |
    |split; [split; [discriminate
                    | intros (_ & _ & _ & _ & _ & (? & ? & _)); discriminate]
            | reflexivity]].
  assert (Hall : (250 <= now evt - lastPasteAt p)%Z /\ true = true
                 /\ false = false /\ true = true
                 /\ (exists info0, Some info = Some info0
                                   /\ inside info0 = true
                                   /\ isPythonLang (lang info0) = true)
                 /\ (exists text, Some (String c t) = Some text /\ text <> "")).
  { repeat split; trivial; [exists info; auto | eexists; split; [reflexivity | discriminate]]. }
  destruct (scope (settings p)).
  - destruct (spawnEffect_spawn (withLastPasteAt p (now evt))
                (mergePasteIntoBlock ed info (String c t))) as (cmd & args & ->).
    destruct (formatText spawn _ _) as [[f | e]|]; cbn [effects existsb orb];
      (split; [split; [intros _; exact Hall | reflexivity] | reflexivity]).
  - destruct (spawnEffect_spawn (withLastPasteAt p (now evt)) (String c t))
      as (cmd & args & ->).
    destruct (formatText spawn _ _) as [[f | e]|]; cbn [effects existsb orb];
      (split; [split; [intros _; exact Hall | reflexivity] | reflexivity]).
Qed.

(** X10: a paste event the listener does not claim leaves the buffer as it
    is, and the listener has then done nothing at all, or only logged an
    error. *)
Theorem editorPaste_not_claimed
    (spawn : string -> list string -> string -> list ChildEvent)
    (p : Plugin) (evt : PasteEvent) (ed : Editor) :
  prevented (editorPaste spawn p evt ed) = false ->
  buffer (editorPaste spawn p evt ed) = value ed
  /\ (effects (editorPaste spawn p evt ed) = []
      \/ effects (editorPaste spawn p evt ed) = [ConsoleError]).
Proof.
  unfold editorPaste, ignored, prevented.
  listener_cases; cbn [effects buffer existsb orb];
    intros H; try discriminate; auto.
Qed.

Lemma editorPaste_not_claimed_witness :
  buffer (editorPaste tidyFormatter plugin0 (pasteAt 1000 "y=2")
            (cursorAt twoFences 3 0))
  = value (cursorAt twoFences 3 0)
  /\ (effects (editorPaste tidyFormatter plugin0 (pasteAt 1000 "y=2")
                 (cursorAt twoFences 3 0)) = []
      \/ effects (editorPaste tidyFormatter plugin0 (pasteAt 1000 "y=2")
                    (cursorAt twoFences 3 0)) = [ConsoleError]).
Proof.
  apply (editorPaste_not_claimed tidyFormatter plugin0 (pasteAt 1000 "y=2")
           (cursorAt twoFences 3 0)).
  reflexivity.
Defined.




(** X12: in block mode, with a collapsed cursor and a formatter that hands
    its input back unchanged, a claimed paste leaves the buffer exactly as
    replacing the selection by the pasted text would. *)
Theorem block_paste_unchanged_format
    (spawn : string -> list string -> string -> list ChildEvent)
    (p : Plugin) (evt : PasteEvent) (ed : Editor) :
  (forall cmd args input,
      runFormatter spawn cmd args input = Some (Resolved input)) ->
  scope (settings p) = BlockScope ->
  anchor ed = head ed ->
  prevented (editorPaste spawn p evt ed) = true ->
  exists text,
    clipboardText evt = Some text
    /\ buffer (editorPaste spawn p evt ed) = replaceSelection ed text.
Proof.
  intros Hid Hscope Hcol.
  assert (Hfmt : forall q code, formatText spawn q code = Some (Resolved code)).
  { intros q code; unfold formatText; destruct (formatCall q); apply Hid. }
  assert (Hfrom : getCursor ed From = head ed)
    by (unfold getCursor; rewrite Hcol; now destruct (posLeb _ _)).
  assert (Hto : getCursor ed To = head ed)
    by (unfold getCursor; rewrite Hcol; now destruct (posLeb _ _)).
  unfold editorPaste, ignored, prevented.
  cbn [settings withLastPasteAt]; rewrite Hscope.
  destruct (now evt - lastPasteAt p <? 250)%Z; [discriminate|].
  destruct (negb (enabled (settings p))); [discriminate|].
  destruct (defaultPrevented evt); [discriminate|].
  destruct (negb (viewIsMarkdown evt)); [discriminate|].
  destruct (findFenceInfo ed (getCursor ed Head)) as [info|] eqn:Hfind;
    [|discriminate].
  destruct (inside info) eqn:Hin; [|discriminate].
  destruct (negb true || negb (isPythonLang (lang info))); [discriminate|].
  destruct (clipboardText evt) as [[|c t]|]; try discriminate.
  rewrite Hfmt; cbn [buffer]; intros _.
  eexists; split; [reflexivity|].
  pose proof (inside_range ed _ info Hfind Hin) as Hr; cbn [getCursor] in Hr.
  unfold replaceBlock, replaceSelection, replaceRange, mergePasteIntoBlock,
    safeFrom, safeTo, getRange.
  rewrite Hfrom, Hto.
  destruct (Z.leb_spec (line (head ed)) (startLine info)); [lia|].
  destruct (Z.geb_spec (line (head ed)) (endLine info)); [lia|].
  apply splice_paste.
  - apply posToOffset_col0_le; cbn [blockStart line ch]; lia.
  - apply posToOffset_line_lt; [cbn [blockEnd line]; lia | reflexivity].
Qed.

Lemma echoFormatter_identity (cmd : string) (args : list string) (input : string) :
  runFormatter echoFormatter cmd args input = Some (Resolved input).
Proof. destruct input; reflexivity. Qed.

Lemma block_paste_unchanged_format_witness :
  exists text,
    clipboardText (pasteAt 1000 "y=2") = Some text
    /\ buffer (editorPaste echoFormatter plugin0 (pasteAt 1000 "y=2")
                 (cursorAt proseThenFence 2 5))
       = replaceSelection (cursorAt proseThenFence 2 5) text.
Proof.
  apply (block_paste_unchanged_format echoFormatter plugin0 (pasteAt 1000 "y=2")
           (cursorAt proseThenFence 2 5)).
  - apply echoFormatter_identity.
  - reflexivity.
  - reflexivity.
  - reflexivity.
Defined.

(** X13: the listener never moves the timestamp backwards, even when the
    clock does, and never changes the settings. *)
Theorem editorPaste_timestamp_monotone
    (spawn : string -> list string -> string -> list ChildEvent)
    (p : Plugin) (evt : PasteEvent) (ed : Editor) :
  (lastPasteAt p <= lastPasteAt (plugin (editorPaste spawn p evt ed)))%Z
  /\ settings (plugin (editorPaste spawn p evt ed)) = settings p.
Proof.
  rewrite editorPaste_plugin.
  destruct (Z.ltb_spec (now evt - lastPasteAt p) 250); cbn; split; trivial; lia.
Qed.

Lemma pasteRun_ignored
    (spawn : string -> list string -> string -> list ChildEvent)
    (t : Z) (rest : list (PasteEvent * Editor)) :
  Forall (fun d => (now (fst d) - t < 250)%Z) rest ->
  forall q, lastPasteAt q = t ->
  pasteRun spawn q rest = map (fun d => ignored q (snd d)) rest.
Proof.
  induction 1 as [|[e ed] rest Hd _ IH]; intros q Hq; [reflexivity|].
  cbn [pasteRun map fst snd] in *.
  assert (E : editorPaste spawn q e ed = ignored q ed).
  { unfold editorPaste; rewrite Hq.
    destruct (Z.ltb_spec (now e - t) 250); [reflexivity | lia]. }
  rewrite E; cbn [plugin ignored]; f_equal; now apply IH.
Qed.

(** X14: after a paste event that comes 250 ms or more after the stored
    timestamp, every event of a burst delivered less than 250 ms after it
    is left to the default paste, however many there are and whatever
    their order: none restarts the window. *)
Theorem paste_burst
    (spawn : string -> list string -> string -> list ChildEvent)
    (p : Plugin) (e1 : PasteEvent) (ed1 : Editor)
    (rest : list (PasteEvent * Editor)) :
  (250 <= now e1 - lastPasteAt p)%Z ->
  Forall (fun d => (now (fst d) - now e1 < 250)%Z) rest ->
  pasteRun spawn p ((e1, ed1) :: rest)
  = editorPaste spawn p e1 ed1
    :: map (fun d => ignored (withLastPasteAt p (now e1)) (snd d)) rest.
Proof.
  intros H1 Hrest; cbn [pasteRun]; f_equal.
  assert (E : plugin (editorPaste spawn p e1 ed1) = withLastPasteAt p (now e1)).
  { rewrite editorPaste_plugin.
    destruct (Z.ltb_spec (now e1 - lastPasteAt p) 250); [lia | reflexivity]. }
  rewrite E; now apply pasteRun_ignored with (t := now e1).
Qed.

Lemma paste_burst_witness :
  pasteRun tidyFormatter plugin0
    [(pasteAt 1000 "y=2", cursorAt proseThenFence 2 5);
     (pasteAt 1249 "y=2", cursorAt proseThenFence 2 5);
     (pasteAt 1100 "z=3", cursorAt proseThenFence 2 0)]
  = editorPaste tidyFormatter plugin0 (pasteAt 1000 "y=2")
      (cursorAt proseThenFence 2 5)
    :: map (fun d => ignored (withLastPasteAt plugin0 1000) (snd d))
         [(pasteAt 1249 "y=2", cursorAt proseThenFence 2 5);
          (pasteAt 1100 "z=3", cursorAt proseThenFence 2 0)].
Proof.
  apply (paste_burst tidyFormatter plugin0 (pasteAt 1000 "y=2")
           (cursorAt proseThenFence 2 5)
           [(pasteAt 1249 "y=2", cursorAt proseThenFence 2 5);
            (pasteAt 1100 "z=3", cursorAt proseThenFence 2 0)]).
  - vm_compute; congruence.
  - repeat constructor.
Defined.

(** ** The command *)

(** X15: the command changes the buffer only by writing the formatter's
    output over the block the cursor is in, and only when that block is a
    Python fence and the formatter resolved; when the cursor is elsewhere,
    or the formatter fails or does not finish, the buffer is as before. *)
Theorem formatCurrentBlock_changes_only_on_success
    (spawn : string -> list string -> string -> list ChildEvent)
    (p : Plugin) (ed : Editor) (r : CommandResult) :
  formatCurrentBlock spawn p ed = Some r ->
  cmdBuffer r <> value ed ->
  exists info formatted,
    findFenceInfo ed (getCursor ed Head) = Some info
    /\ inside info = true
    /\ isPythonLang (lang info) = true
    /\ formatText spawn p (getBlockText ed info) = Some (Resolved formatted)
    /\ cmdEffects r = [spawnEffect p (getBlockText ed info);
                       ReplaceBlock info formatted]
    /\ cmdBuffer r = replaceBlock ed info formatted.
Proof.
  unfold formatCurrentBlock.
  destruct (findFenceInfo ed (getCursor ed Head)) as [info|]; [|discriminate].
  destruct (inside info) eqn:Hin; cbn [negb orb];
    [|intros [= <-] Hne; now contradiction Hne].
  destruct (isPythonLang (lang info)) eqn:Hpy; cbn [negb];
    [|intros [= <-] Hne; now contradiction Hne].
  destruct (formatText spawn p (getBlockText ed info)) as [[f | e]|] eqn:Hf;
    intros [= <-] Hne; try now contradiction Hne.
  exists info, f; repeat split; trivial.
Qed.

Lemma formatCurrentBlock_changes_only_on_success_witness :
  exists info formatted,
    findFenceInfo (cursorAt twoFences 5 0) (getCursor (cursorAt twoFences 5 0) Head)
    = Some info
    /\ inside info = true
    /\ isPythonLang (lang info) = true
    /\ formatText tidyFormatter plugin0 (getBlockText (cursorAt twoFences 5 0) info)
       = Some (Resolved formatted)
    /\ [spawnEffect plugin0 ("y = 2" ++ nl);
        ReplaceBlock {| inside := true; lang := Some "py";
                        startLine := 4; endLine := 6 |} ("x = 1" ++ nl)]
       = [spawnEffect plugin0 (getBlockText (cursorAt twoFences 5 0) info);
          ReplaceBlock info formatted]
    /\ "```python" ++ nl ++ "x = 1" ++ nl ++ "```" ++ nl ++ "prose" ++ nl
       ++ "```py" ++ nl ++ "x = 1" ++ nl ++ "```"
       = replaceBlock (cursorAt twoFences 5 0) info formatted.
Proof.
  apply (formatCurrentBlock_changes_only_on_success tidyFormatter plugin0
           (cursorAt twoFences 5 0)
           {| warned := false;
              cmdEffects :=
                [spawnEffect plugin0 ("y = 2" ++ nl);
                 ReplaceBlock {| inside := true; lang := Some "py";
                                 startLine := 4; endLine := 6 |} ("x = 1" ++ nl)];
              cmdBuffer :=
                "```python" ++ nl ++ "x = 1" ++ nl ++ "```" ++ nl ++ "prose" ++ nl
                ++ "```py" ++ nl ++ "x = 1" ++ nl ++ "```" |}).
  - reflexivity.
  - vm_compute; discriminate.
Defined.

(** X16: with a formatter that hands its input back unchanged, in
    particular one that exits with status 0 and prints nothing, the command
    leaves the whole buffer as it is. *)
Theorem formatCurrentBlock_unchanged_format
    (spawn : string -> list string -> string -> list ChildEvent)
    (p : Plugin) (ed : Editor) (r : CommandResult) :
  (forall cmd args input,
      runFormatter spawn cmd args input = Some (Resolved input)) ->
  formatCurrentBlock spawn p ed = Some r ->
  cmdBuffer r = value ed.
Proof.
  intros Hid; unfold formatCurrentBlock.
  destruct (findFenceInfo ed (getCursor ed Head)) as [info|] eqn:Hfind;
    [|discriminate].
  destruct (inside info) eqn:Hin; cbn [negb orb]; [|now intros [= <-]].
  destruct (isPythonLang (lang info)); cbn [negb]; [|now intros [= <-]].
  assert (Hfmt : formatText spawn p (getBlockText ed info)
                 = Some (Resolved (getBlockText ed info)))
    by (unfold formatText; destruct (formatCall p); apply Hid).
  rewrite Hfmt; intros [= <-]; cbn [cmdBuffer].
  pose proof (inside_range ed _ info Hfind Hin) as Hr.
  unfold replaceBlock, replaceRange, getBlockText, getRange.
  apply slice_split, block_offsets; lia.
Qed.

Lemma formatCurrentBlock_unchanged_format_witness :
  cmdBuffer {| warned := false;
               cmdEffects :=
                 [spawnEffect plugin0 ("y = 2" ++ nl);
                  ReplaceBlock {| inside := true; lang := Some "py";
                                  startLine := 4; endLine := 6 |} ("y = 2" ++ nl)];
               cmdBuffer := twoFences |}
  = value (cursorAt twoFences 5 0).
Proof.
  apply (formatCurrentBlock_unchanged_format silentFormatter plugin0
           (cursorAt twoFences 5 0)).
  - intros cmd args input; reflexivity.
  - reflexivity.
Defined.

(** ** The path fields of the settings tab *)

Lemma trimStart_spaces (s : string) :
  allChars Str.isSpace (Str.trimStart s) = allChars Str.isSpace s.
Proof.
  induction s as [|c r IH]; simpl; trivial.
  destruct (Str.isSpace c) eqn:Ec; simpl; [assumption | now rewrite Ec].
Qed.

Lemma trimEnd_empty (s : string) :
  Str.trimEnd s = "" <-> allChars Str.isSpace s = true.
Proof.
  induction s as [|c r IH]; simpl; [tauto|].
  rewrite andb_true_iff, <- IH.
  destruct (Str.trimEnd r); destruct (Str.isSpace c);
    split; try discriminate; try tauto; intros [? ?]; discriminate.
Qed.

Lemma trim_empty (s : string) :
  Str.trim s = "" <-> allChars Str.isSpace s = true.
Proof.
  unfold Str.trim; now rewrite trimEnd_empty, trimStart_spaces.
Qed.

Lemma orElse_trim (v d : string) :
  orElse (Str.trim v) d = if allChars Str.isSpace v then d else Str.trim v.
Proof.
  destruct (allChars Str.isSpace v) eqn:E.
  - apply trim_empty in E; now rewrite E.
  - destruct (Str.trim v) eqn:Et; trivial.
    apply trim_empty in Et; congruence.
Qed.

(** X17: whatever is typed into a path field, the stored path is never
    empty: a value of white space only (the empty value included) stores
    the engine's default name, any other value is stored trimmed; and the
    other settings and the timestamp are left alone. *)
Theorem path_fields_never_empty (p : Plugin) (v : string) :
  ruffPath (settings (onRuffPathChange p v))
  = (if allChars Str.isSpace v then "ruff" else Str.trim v)
  /\ blackPath (settings (onBlackPathChange p v))
     = (if allChars Str.isSpace v then "black" else Str.trim v)
  /\ ruffPath (settings (onRuffPathChange p v)) <> ""
  /\ blackPath (settings (onBlackPathChange p v)) <> ""
  /\ blackPath (settings (onRuffPathChange p v)) = blackPath (settings p)
  /\ ruffPath (settings (onBlackPathChange p v)) = ruffPath (settings p).
Proof.
  cbn [onRuffPathChange onBlackPathChange withSettings settings ruffPath blackPath].
  rewrite !orElse_trim.
  repeat split; trivial;
    destruct (allChars Str.isSpace v) eqn:E; try discriminate;
    intros Ht; apply trim_empty in Ht; congruence.
Qed.

(** ** Lines and offsets *)

Lemma splitLines_nonempty (s : string) : Str.splitLines s <> [].
Proof.
  destruct s as [|c r]; simpl; [discriminate|].
  destruct (Ascii.eqb c "010"); [discriminate|].
  destruct (Str.splitLines r); discriminate.
Qed.

Lemma offsetAt_next (x : string) (rest : list string) (k c : nat) :
  rest <> [] ->
  offsetAt (x :: rest) (S k) c = S (String.length x + offsetAt rest k c).
Proof. destruct rest; [contradiction | reflexivity]. Qed.

(** The text before the start of line [k] is the first [k] lines, each
    with its line break. *)
Lemma take_line_start (s : string) :
  forall k, k < List.length (Str.splitLines s) ->
  Str.take (offsetAt (Str.splitLines s) k 0) s
  = unlines (firstn k (Str.splitLines s)).
Proof.
  induction s as [|c r IH]; intros k Hk.
  - simpl in Hk; assert (k = 0) as -> by lia; reflexivity.
  - destruct k as [|k].
    + simpl. destruct (Ascii.eqb c "010"); [reflexivity|].
      now destruct (Str.splitLines r).
    + pose proof (splitLines_nonempty r) as Hne.
      cbn [Str.splitLines] in *.
      destruct (Ascii.eqb_spec c "010") as [-> | Hc].
      * cbn [List.length] in Hk.
        rewrite offsetAt_next by assumption.
        cbn [String.length Nat.add Str.take firstn unlines].
        rewrite IH by lia; reflexivity.
      * destruct (Str.splitLines r) as [|x xs] eqn:El; [contradiction|].
        cbn [List.length] in Hk.
        assert (Hxs : xs <> []) by (destruct xs; [simpl in Hk; lia | discriminate]).
        rewrite offsetAt_next by assumption.
        specialize (IH (S k)); rewrite offsetAt_next in IH by assumption.
        cbn [String.length Nat.add Str.take firstn unlines append] in *.
        rewrite IH by (simpl; lia); reflexivity.
Qed.

Lemma splitLines_line (l u : string) :
  Str.splitLines l = [l] ->
  Str.splitLines (l ++ nl ++ u) = l :: Str.splitLines u.
Proof.
  induction l as [|c l IHl]; intros Hl; [reflexivity|].
  cbn [append Str.splitLines] in Hl |- *.
  destruct (Ascii.eqb c "010"); [now injection Hl|].
  pose proof (splitLines_nonempty l) as Hne.
  destruct (Str.splitLines l) as [|y ys]; [contradiction|].
  injection Hl as -> ->.
  now rewrite IHl.
Qed.

(** The lines of whole lines followed by a text are those lines followed
    by the lines of the text. *)
Lemma splitLines_unlines (ls : list string) (t : string) :
  Forall (fun l => Str.splitLines l = [l]) ls ->
  Str.splitLines (unlines ls ++ t) = (ls ++ Str.splitLines t)%list.
Proof.
  induction 1 as [|l ls Hl _ IH]; [reflexivity|].
  cbn [unlines]; rewrite !append_assoc.
  rewrite splitLines_line by assumption.
  now rewrite IH.
Qed.

Lemma splitLines_single (s : string) :
  Forall (fun l => Str.splitLines l = [l]) (Str.splitLines s).
Proof.
  induction s as [|c r IH]; cbn [Str.splitLines]; [now constructor|].
  destruct (Ascii.eqb c "010") eqn:Ec; [now constructor|].
  pose proof (splitLines_nonempty r) as Hne.
  destruct (Str.splitLines r) as [|x xs]; [contradiction|].
  inversion IH as [|? ? Hx Hxs]; subst.
  constructor; trivial.
  cbn [Str.splitLines]; now rewrite Ec, Hx.
Qed.

Lemma Forall_firstn {A : Type} (P : A -> Prop) (n : nat) (l : list A) :
  Forall P l -> Forall P (firstn n l).
Proof.
  intros H; revert n; induction H; intros [|n]; simpl; constructor; auto.
Qed.

Lemma firstn_app_exact {A : Type} (n : nat) (l l' : list A) :
  n <= List.length l -> firstn n (firstn n l ++ l') = firstn n l.
Proof.
  revert l; induction n as [|n IH]; intros [|x l] Hn; simpl in *; trivial;
    [lia | f_equal; apply IH; lia].
Qed.

(** X18: [replaceBlock] leaves the opening delimiter line and every line
    above it as they are, whatever text is written into the block. *)
Theorem replaceBlock_keeps_opening (ed : Editor) (info : FenceInfo)
    (newCode : string) (i : Z) :
  (0 <= startLine info)%Z ->
  (startLine info + 1 < lineCount ed)%Z ->
  (0 <= i <= startLine info)%Z ->
  getLine (withValue ed (replaceBlock ed info newCode)) i = getLine ed i.
Proof.
  intros H0 H1 Hi; unfold getLine, lines, lineCount, lines in *.
  destruct (Z.ltb_spec i 0); [lia|].
  unfold replaceBlock, replaceRange, withValue, posToOffset; cbn [value blockStart line ch].
  destruct (Z.ltb_spec (startLine info + 1) 0); [lia|].
  change (Z.to_nat 0) with 0.
  set (k := Z.to_nat (startLine info + 1)).
  assert (Hk : k < List.length (Str.splitLines (value ed))) by lia.
  unfold lines; rewrite take_line_start by assumption.
  rewrite splitLines_unlines
    by (apply Forall_firstn, splitLines_single).
  transitivity (nth_error (firstn k (Str.splitLines (value ed))) (Z.to_nat i)).
  - rewrite <- (firstn_app_exact k (Str.splitLines (value ed))
                  (Str.splitLines (newCode ++ Str.drop
                     (if (line (blockEnd info) <? 0)%Z then 0
                      else offsetAt (Str.splitLines (value ed))
                             (Z.to_nat (line (blockEnd info)))
                             (Z.to_nat (ch (blockEnd info))))
                     (value ed)))) at 2 by lia.
    rewrite (nth_error_firstn k).
    destruct (Nat.ltb_spec (Z.to_nat i) k); [reflexivity | lia].
  - rewrite nth_error_firstn.
    destruct (Nat.ltb_spec (Z.to_nat i) k); [reflexivity | lia].
Qed.

Lemma replaceBlock_keeps_opening_witness :
  getLine (withValue (cursorAt twoFences 5 0)
             (replaceBlock (cursorAt twoFences 5 0)
                {| inside := true; lang := Some "py";
                   startLine := 4; endLine := 6 |} "z"))
    4
  = getLine (cursorAt twoFences 5 0) 4.
Proof.
  apply (replaceBlock_keeps_opening (cursorAt twoFences 5 0)
           {| inside := true; lang := Some "py"; startLine := 4; endLine := 6 |}
           "z" 4);
    vm_compute; intuition discriminate.
Defined.

(** ** The block, line by line *)

Lemma unlines_app (a b : list string) :
  unlines (a ++ b) = unlines a ++ unlines b.
Proof.
  induction a as [|l a IH]; cbn [unlines app]; [reflexivity|].
  now rewrite IH, !append_assoc.
Qed.

Lemma append_inv_head (a b c : string) : a ++ b = a ++ c -> b = c.
Proof. induction a as [|x a IH]; simpl; [trivial | intros [= H]; auto]. Qed.

Lemma firstn_split {A : Type} (a b : nat) (l : list A) :
  a <= b ->
  firstn b l = (firstn a l ++ firstn (b - a) (skipn a l))%list.
Proof.
  intros Hab.
  rewrite <- (firstn_skipn a (firstn b l)) at 1.
  rewrite firstn_firstn, skipn_firstn_comm.
  now replace (Nat.min a b) with a by lia.
Qed.

(** The text between the starts of lines [a] and [b] is the lines from
    [a] up to [b], each with its line break. *)
Lemma slice_lines (s : string) (a b : nat) :
  a <= b -> b < List.length (Str.splitLines s) ->
  Str.slice (offsetAt (Str.splitLines s) a 0) (offsetAt (Str.splitLines s) b 0) s
  = unlines (firstn (b - a) (skipn a (Str.splitLines s))).
Proof.
  intros Hab Hb.
  set (ls := Str.splitLines s).
  assert (Hoff : offsetAt ls a 0 <= offsetAt ls b 0) by now apply offsetAt_line_le.
  pose proof (take_line_start s b Hb) as Tb.
  pose proof (take_line_start s a ltac:(lia)) as Ta.
  fold ls in Ta, Tb.
  unfold Str.slice; rewrite <- drop_take.
  apply (append_inv_head (unlines (firstn a ls))).
  rewrite <- unlines_app, <- firstn_split, <- Tb by assumption.
  rewrite <- Ta at 1.
  rewrite <- (take_take (offsetAt ls a 0) (offsetAt ls b 0)) by assumption.
  apply take_drop.
Qed.

(** X19: for a fence whose delimiter lines are lines of the buffer,
    [getBlockText] is the lines strictly between the two delimiters, each
    followed by its line break: the block text ends with a line break
    unless the block has no line, and holds nothing of the delimiter
    lines. *)
Theorem getBlockText_content_lines (ed : Editor) (info : FenceInfo) :
  (0 <= startLine info < endLine info)%Z ->
  (endLine info < lineCount ed)%Z ->
  getBlockText ed info
  = unlines (firstn (Z.to_nat (endLine info - startLine info - 1))
               (skipn (Z.to_nat (startLine info + 1)) (lines ed))).
Proof.
  intros Hse He; unfold getBlockText, getRange, posToOffset, lineCount in *.
  cbn [blockStart blockEnd line ch].
  destruct (Z.ltb_spec (startLine info + 1) 0); [lia|].
  destruct (Z.ltb_spec (endLine info) 0); [lia|].
  change (Z.to_nat 0) with 0; unfold lines in *.
  rewrite slice_lines by lia.
  do 2 f_equal; lia.
Qed.

Lemma getBlockText_content_lines_witness :
  getBlockText (cursorAt twoFences 1 0)
    {| inside := true; lang := Some "python"; startLine := 0; endLine := 2 |}
  = unlines (firstn (Z.to_nat (2 - 0 - 1))
               (skipn (Z.to_nat (0 + 1)) (lines (cursorAt twoFences 1 0)))).
Proof.
  apply (getBlockText_content_lines (cursorAt twoFences 1 0)
           {| inside := true; lang := Some "python";
              startLine := 0; endLine := 2 |});
    vm_compute; intuition discriminate.
Defined.

Lemma no_break_single (l : string) :
  allChars (fun c => negb (Ascii.eqb c "010")) l = true ->
  Str.splitLines l = [l].
Proof.
  induction l as [|c l IH]; [reflexivity|].
  cbn [allChars Str.splitLines]; intros H.
  apply andb_true_iff in H as [Hc Hl].
  apply negb_true_iff in Hc; rewrite Hc, (IH Hl); reflexivity.
Qed.

Lemma Forall_no_break (ls : list string) :
  Forall (fun l => allChars (fun c => negb (Ascii.eqb c "010")) l = true) ls ->
  Forall (fun l => Str.splitLines l = [l]) ls.
Proof.
  induction 1; constructor; auto using no_break_single.
Qed.

(** The lines from line [b] on are the lines of the text from the start
    of line [b] on. *)
Lemma drop_line_start (s : string) (b : nat) :
  b < List.length (Str.splitLines s) ->
  Str.splitLines (Str.drop (offsetAt (Str.splitLines s) b 0) s)
  = skipn b (Str.splitLines s).
Proof.
  intros Hb.
  pose proof (take_line_start s b Hb) as Tb.
  pose proof (take_drop (offsetAt (Str.splitLines s) b 0) s) as Hs.
  rewrite Tb in Hs.
  pose proof (splitLines_unlines (firstn b (Str.splitLines s))
                (Str.drop (offsetAt (Str.splitLines s) b 0) s)
                (Forall_firstn _ _ _ (splitLines_single s))) as Hsplit.
  rewrite Hs in Hsplit.
  apply (f_equal (skipn b)) in Hsplit.
  rewrite skipn_app, length_firstn in Hsplit.
  replace (b - Nat.min b (List.length (Str.splitLines s))) with 0 in Hsplit by lia.
  rewrite (skipn_all2 (firstn b (Str.splitLines s))) in Hsplit
    by (rewrite length_firstn; lia).
  now rewrite Hsplit.
Qed.

(** X20: for a fence whose delimiter lines are lines of the buffer,
    writing whole lines into the block (each given line followed by its
    line break) replaces exactly the lines strictly between the two
    delimiters by the given lines: the lines up to the opening delimiter
    and from the closing delimiter on are kept, in place and in order. *)
Theorem replaceBlock_lines (ed : Editor) (info : FenceInfo)
    (newLines : list string) :
  (0 <= startLine info < endLine info)%Z ->
  (endLine info < lineCount ed)%Z ->
  Forall (fun l => allChars (fun c => negb (Ascii.eqb c "010")) l = true)
    newLines ->
  lines (withValue ed (replaceBlock ed info (unlines newLines)))
  = (firstn (Z.to_nat (startLine info + 1)) (lines ed)
     ++ newLines
     ++ skipn (Z.to_nat (endLine info)) (lines ed))%list.
Proof.
  intros Hse He Hnew.
  unfold lines, lineCount, lines, withValue, replaceBlock, replaceRange,
    posToOffset in *.
  cbn [value blockStart blockEnd line ch].
  destruct (Z.ltb_spec (startLine info + 1) 0); [lia|].
  destruct (Z.ltb_spec (endLine info) 0); [lia|].
  change (Z.to_nat 0) with 0; unfold lines.
  rewrite take_line_start by lia.
  rewrite splitLines_unlines by (apply Forall_firstn, splitLines_single).
  rewrite splitLines_unlines by now apply Forall_no_break.
  now rewrite drop_line_start by lia.
Qed.

Lemma replaceBlock_lines_witness :
  lines (withValue (cursorAt twoFences 1 0)
           (replaceBlock (cursorAt twoFences 1 0)
              {| inside := true; lang := Some "python";
                 startLine := 0; endLine := 2 |}
              (unlines ["a = 1"; "b = 2"])))
  = (firstn (Z.to_nat (0 + 1)) (lines (cursorAt twoFences 1 0))
     ++ ["a = 1"; "b = 2"]
     ++ skipn (Z.to_nat 2) (lines (cursorAt twoFences 1 0)))%list.
Proof.
  apply (replaceBlock_lines (cursorAt twoFences 1 0)
           {| inside := true; lang := Some "python";
              startLine := 0; endLine := 2 |} ["a = 1"; "b = 2"]).
  - vm_compute; intuition discriminate.
  - vm_compute; reflexivity.
  - repeat constructor.
Defined.

(** ** The fence after the block is rewritten *)

Lemma locates_pair (ed : Editor) (p o c : Z) (lo : string) (fi : FenceInfo) :
  openAt ed p o -> closeAt ed o c -> getLine ed o = Some lo ->
  locates ed p fi ->
  fi = {| inside := ((o <? p) && (p <? c))%Z; lang := extractFenceLang lo;
          startLine := o; endLine := c |}.
Proof.
  intros Hopen Hclose Hlo Hloc.
  destruct Hloc as [Hn | o' Ho' Hn | o' c' lo' Ho' Hc' Hlo'].
  - now apply openAt_some in Hopen.
  - rewrite <- (openAt_unique _ _ _ _ Hopen Ho') in Hn.
    now apply closeAt_some in Hclose.
  - rewrite <- (openAt_unique _ _ _ _ Hopen Ho') in *.
    rewrite <- (closeAt_unique _ _ _ _ Hclose Hc') in *.
    congruence.
Qed.

(** The lines of the buffer after whole lines were written into the
    block, zone by zone. *)
Lemma getLine_replaced (ed : Editor) (info : FenceInfo) (newLines : list string) :
  (0 <= startLine info < endLine info)%Z ->
  (endLine info < lineCount ed)%Z ->
  Forall (fun l => allChars (fun c => negb (Ascii.eqb c "010")) l = true)
    newLines ->
  let ed' := withValue ed (replaceBlock ed info (unlines newLines)) in
  let n := Z.of_nat (List.length newLines) in
  (forall i, (0 <= i <= startLine info)%Z -> getLine ed' i = getLine ed i)
  /\ (forall i, (startLine info < i <= startLine info + n)%Z ->
      getLine ed' i = nth_error newLines (Z.to_nat (i - startLine info - 1)))
  /\ getLine ed' (startLine info + 1 + n) = getLine ed (endLine info)
  /\ (startLine info + 1 + n < lineCount ed')%Z.
Proof.
  intros Hse He Hnew ed' n.
  assert (Hl : lines ed'
               = (firstn (Z.to_nat (startLine info + 1)) (lines ed)
                  ++ newLines ++ skipn (Z.to_nat (endLine info)) (lines ed))%list).
  { subst ed'.
    unfold lines, lineCount, lines, withValue, replaceBlock, replaceRange,
      posToOffset in *.
    cbn [value blockStart blockEnd line ch].
    destruct (Z.ltb_spec (startLine info + 1) 0); [lia|].
    destruct (Z.ltb_spec (endLine info) 0); [lia|].
    change (Z.to_nat 0) with 0; unfold lines.
    rewrite take_line_start by lia.
    rewrite splitLines_unlines by (apply Forall_firstn, splitLines_single).
    rewrite splitLines_unlines by now apply Forall_no_break.
    now rewrite drop_line_start by lia. }
  unfold lineCount in *.
  set (a := Z.to_nat (startLine info + 1)) in *.
  assert (Ha : List.length (firstn a (lines ed)) = a)
    by (rewrite length_firstn; lia).
  assert (Hget : forall e i, (0 <= i)%Z ->
                   getLine e i = nth_error (lines e) (Z.to_nat i)).
  { intros e i Hi; unfold getLine; destruct (Z.ltb_spec i 0); [lia | trivial]. }
  repeat split.
  - intros i Hi; rewrite !Hget, Hl by lia.
    rewrite nth_error_app1 by lia.
    rewrite nth_error_firstn.
    destruct (Nat.ltb_spec (Z.to_nat i) a); [trivial | lia].
  - intros i Hi; rewrite Hget, Hl by lia.
    rewrite nth_error_app2 by lia.
    rewrite nth_error_app1 by lia.
    f_equal; lia.
  - rewrite !Hget, Hl by lia.
    rewrite nth_error_app2 by lia.
    rewrite nth_error_app2 by lia.
    rewrite nth_error_skipn; f_equal; lia.
  - rewrite Hl, !length_app, Ha, length_skipn; lia.
Qed.

(** X21: take a fence whose delimiter lines are lines of the buffer and
    write into its block whole lines none of which starts with a triple
    backtick.  For a cursor on any of the written lines, [findFenceInfo]
    on the new buffer reports [inside = true], the same opening line with
    the same tag, and the closing delimiter right after the written
    lines. *)
Theorem findFenceInfo_after_replaceBlock (ed : Editor) (info : FenceInfo)
    (newLines : list string) (pos : EditorPosition) (lo : string) :
  (0 <= startLine info < endLine info)%Z ->
  getLine ed (startLine info) = Some lo -> isFence lo = true ->
  fenceLine ed (endLine info) = true ->
  Forall (fun l => allChars (fun c => negb (Ascii.eqb c "010")) l = true)
    newLines ->
  Forall (fun l => isFence l = false) newLines ->
  (startLine info < line pos
   <= startLine info + Z.of_nat (List.length newLines))%Z ->
  findFenceInfo (withValue ed (replaceBlock ed info (unlines newLines))) pos
  = Some {| inside := true; lang := extractFenceLang lo;
            startLine := startLine info;
            endLine := startLine info + 1 + Z.of_nat (List.length newLines) |}.
Proof.
  intros Hse Hlo Hfo Hfc Hnb Hnf Hpos.
  pose proof (fenceLine_range _ _ Hfc) as Hc.
  destruct (getLine_replaced ed info newLines Hse (proj2 Hc) Hnb)
    as (Hup & Hmid & Hend & Hcount).
  set (ed' := withValue ed (replaceBlock ed info (unlines newLines))) in *.
  set (n := Z.of_nat (List.length newLines)) in *.
  assert (Hmidf : forall k, (startLine info < k <= startLine info + n)%Z ->
                    fenceLine ed' k = false).
  { intros k Hk; unfold fenceLine; rewrite (Hmid k Hk).
    destruct (nth_error newLines (Z.to_nat (k - startLine info - 1))) as [l|] eqn:El;
      [|reflexivity].
    apply nth_error_In in El.
    rewrite Forall_forall in Hnf; now apply Hnf. }
  assert (Hlo' : getLine ed' (startLine info) = Some lo)
    by (rewrite Hup by lia; assumption).
  assert (Hopen : openAt ed' (line pos) (startLine info)).
  { repeat split; try lia.
    - unfold fenceLine; now rewrite Hlo'.
    - intros k Hk; apply Hmidf; lia. }
  assert (Hclose : closeAt ed' (startLine info) (startLine info + 1 + n)).
  { repeat split; try lia.
    - unfold fenceLine in *; now rewrite Hend.
    - intros k Hk; apply Hmidf; lia. }
  destruct (findFenceInfo_locates ed' pos) as (fi & E & Hloc); [lia|].
  rewrite E, (locates_pair _ _ _ _ _ _ Hopen Hclose Hlo' Hloc).
  do 2 f_equal; apply inside_of_delimiters; lia.
Qed.

Lemma findFenceInfo_after_replaceBlock_witness :
  findFenceInfo
    (withValue (cursorAt twoFences 1 0)
       (replaceBlock (cursorAt twoFences 1 0)
          {| inside := true; lang := Some "python";
             startLine := 0; endLine := 2 |}
          (unlines ["a = 1"; "b = 2"])))
    {| line := 2; ch := 0 |}
  = Some {| inside := true; lang := extractFenceLang "```python";
            startLine := 0;
            endLine := 0 + 1 + Z.of_nat (List.length ["a = 1"; "b = 2"]) |}.
Proof.
  apply (findFenceInfo_after_replaceBlock (cursorAt twoFences 1 0)
           {| inside := true; lang := Some "python";
              startLine := 0; endLine := 2 |}
           ["a = 1"; "b = 2"] {| line := 2; ch := 0 |} "```python").
  - vm_compute; intuition discriminate.
  - reflexivity.
  - reflexivity.
  - reflexivity.
  - repeat constructor.
  - repeat constructor.
  - vm_compute; intuition discriminate.
Defined.

(** ** Tags, upper and lower case *)

Lemma toLowerCase_empty (t : string) : Str.toLowerCase t = "" <-> t = "".
Proof. destruct t; simpl; split; trivial; discriminate. Qed.

(** X22: [isPythonLang] looks at the tag only through its lower-cased
    form: two tags that differ in letter case alone are both accepted or
    both rejected. *)
Theorem isPythonLang_case_insensitive (t u : string) :
  Str.toLowerCase t = Str.toLowerCase u ->
  isPythonLang (Some t) = isPythonLang (Some u).
Proof.
  intros H; unfold isPythonLang.
  destruct t as [|a t]; destruct u as [|b u]; trivial.
  - symmetry in H; apply toLowerCase_empty in H; discriminate.
  - apply toLowerCase_empty in H; discriminate.
  - now rewrite H.
Qed.

Lemma isPythonLang_case_insensitive_witness :
  isPythonLang (Some "PyThOn3") = isPythonLang (Some "python3").
Proof.
  apply (isPythonLang_case_insensitive "PyThOn3" "python3"); reflexivity.
Defined.

(** ** The tag of any opening line *)

Lemma trimStart_lead (lead s : string) :
  allChars Str.isSpace lead = true ->
  Str.trimStart (lead ++ s) = Str.trimStart s.
Proof.
  induction lead as [|c lead IH]; simpl; trivial.
  intros H; apply andb_true_iff in H as [-> H]; auto.
Qed.

Lemma trimEnd_app (a b : string) :
  Str.trimEnd (a ++ b)
  = match Str.trimEnd b with
    | "" => Str.trimEnd a
    | b' => a ++ b'
    end.
Proof.
  induction a as [|c a IH]; cbn [append Str.trimEnd].
  - now destruct (Str.trimEnd b).
  - rewrite IH; destruct (Str.trimEnd b) as [|x y]; trivial.
    now destruct a.
Qed.

Lemma trimEnd_head (c : ascii) (r : string) :
  Str.trimEnd (String c r) = "" \/ exists r', Str.trimEnd (String c r) = String c r'.
Proof.
  cbn [Str.trimEnd].
  destruct (Str.trimEnd r); [destruct (Str.isSpace c)|]; eauto.
Qed.

Lemma span_run (p : ascii -> bool) (run rest : string) :
  allChars p run = true ->
  (rest = "" \/ exists c r, rest = String c r /\ p c = false) ->
  Str.span p (run ++ rest) = (run, rest).
Proof.
  intros Hrun Hrest; induction run as [|c run IH]; cbn [append Str.span].
  - destruct Hrest as [-> | (c & r & -> & Hc)]; [reflexivity|].
    cbn [Str.span]; now rewrite Hc.
  - simpl in Hrun; apply andb_true_iff in Hrun as [-> Hrun].
    now rewrite (IH Hrun).
Qed.

(** X23: on a line made of optional leading white space, three or more
    backticks, optional white space, a non-empty tag of tag characters and
    then either nothing or a rest that begins with a character that cannot
    be part of a tag, [extractFenceLang] returns exactly the tag, with its
    letter case kept. *)
Theorem extractFenceLang_tag (lead ticks sp tag rest : string) :
  allChars Str.isSpace lead = true ->
  allChars isBacktick ticks = true -> 3 <= String.length ticks ->
  allChars Str.isSpace sp = true ->
  tag <> "" -> allChars isTagChar tag = true ->
  (rest = "" \/ exists c r, rest = String c r /\ isTagChar c = false) ->
  extractFenceLang (lead ++ ticks ++ sp ++ tag ++ rest) = Some tag.
Proof.
  intros Hlead Hticks Hlen Hsp Hne Htag Hrest.
  assert (Hns : allChars (fun c => negb (Str.isSpace c)) tag = true).
  { apply (allChars_weaken isTagChar); trivial.
    intros c Hc; apply isTagChar_inv in Hc as [-> _]; trivial. }
  assert (Htick1 : exists c r, ticks = String c r /\ Str.isSpace c = false).
  { destruct ticks as [|c r]; [simpl in Hlen; lia|].
    simpl in Hticks; apply andb_true_iff in Hticks as [Hc _].
    apply Ascii.eqb_eq in Hc; subst; eauto. }
  assert (Htag1 : exists c r, tag = String c r /\ isTagChar c = true).
  { destruct tag as [|c r]; [contradiction|].
    simpl in Htag; apply andb_true_iff in Htag as [Hc _]; eauto. }
  (* what trimming leaves *)
  set (rest' := Str.trimEnd rest).
  assert (Htrim : Str.trim (lead ++ ticks ++ sp ++ tag ++ rest)
                  = ticks ++ sp ++ tag ++ rest').
  { unfold Str.trim; rewrite trimStart_lead by assumption.
    destruct Htick1 as (c & r & -> & Hc).
    cbn [append Str.trimStart]; rewrite Hc.
    change (String c (r ++ sp ++ tag ++ rest))
      with (String c r ++ sp ++ tag ++ rest).
    rewrite <- !append_assoc, trimEnd_app; fold rest'.
    destruct rest' eqn:Er; [|reflexivity].
    rewrite append_empty_r, trimEnd_app, trimEnd_id by assumption.
    destruct tag; [contradiction | reflexivity]. }
  assert (Hrest' : rest' = "" \/ exists c r, rest' = String c r /\ isTagChar c = false).
  { subst rest'; destruct Hrest as [-> | (c & r & -> & Hc)]; [now left|].
    destruct (trimEnd_head c r) as [-> | (r' & ->)]; eauto. }
  unfold extractFenceLang; rewrite Htrim.
  rewrite (span_run isBacktick ticks (sp ++ tag ++ rest')); trivial.
  2:{ right. destruct sp as [|c sp'].
      - destruct Htag1 as (c & r & -> & Hc).
        exists c, (r ++ rest'); split; [reflexivity|].
        now apply isTagChar_inv in Hc.
      - exists c, (sp' ++ tag ++ rest'); split; [reflexivity|].
        simpl in Hsp; apply andb_true_iff in Hsp as [Hc _].
        unfold isBacktick; destruct (Ascii.eqb_spec c "`"); [subst; discriminate | trivial]. }
  destruct (Nat.ltb_spec (String.length ticks) 3); [lia|].
  rewrite (span_run Str.isSpace sp (tag ++ rest')); trivial.
  2:{ right. destruct Htag1 as (c & r & -> & Hc).
      exists c, (r ++ rest'); split; [reflexivity|].
      now apply isTagChar_inv in Hc. }
  rewrite (span_run isTagChar tag rest'); trivial.
  destruct tag; [contradiction | reflexivity].
Qed.

Lemma extractFenceLang_tag_witness :
  extractFenceLang ("  " ++ "````" ++ " " ++ "Py3" ++ " {.numberLines}  ")
  = Some "Py3".
Proof.
  apply (extractFenceLang_tag "  " "````" " " "Py3" " {.numberLines}  ").
  - reflexivity.
  - reflexivity.
  - simpl; lia.
  - reflexivity.
  - discriminate.
  - reflexivity.
  - right; exists " "%char, "{.numberLines}  "; split; reflexivity.
Defined.

(** * Output in chunks, tags by shape, and the merge selection by selection *)

(** ** Chunks of output, decoded one by one *)

Example decode_ex :
  bufferToString [Byte.xc3; Byte.xa9] = [233%N]
  /\ bufferToString [Byte.xf0; Byte.x9f; Byte.x98; Byte.x80] = [55357%N; 56832%N]
  /\ bufferToString [Byte.xe2; Byte.x82; Byte.xac; Byte.x41] = [8364%N; 65%N]
  /\ bufferToString [Byte.xc3] = [65533%N]
  /\ bufferToString [Byte.xa9; Byte.x0a] = [65533%N; 10%N]
  /\ bufferToString [Byte.xe2; Byte.x82; Byte.x41] = [65533%N; 65%N].
Proof. repeat split. Qed.

Lemma fold_raw_data (input : JsString) (events : list RawChildEvent) :
  forallb isRawData events = true ->
  forall st,
    fold_left (onRawChildEvent input) events st
    = {| rawOut := (rawOut st
                    ++ flat_map (fun ev => match ev with
                                           | RawStdout d => bufferToString d
                                           | _ => []
                                           end) events)%list;
         rawErr := (rawErr st
                    ++ flat_map (fun ev => match ev with
                                           | RawStderr d => bufferToString d
                                           | _ => []
                                           end) events)%list;
         rawSettled := rawSettled st |}.
Proof.
  induction events as [|ev events IH]; intros Hall st; cbn [fold_left flat_map].
  - rewrite !app_nil_r; now destruct st.
  - simpl in Hall; apply andb_true_iff in Hall as [Hev Hall].
    destruct ev; try discriminate; rewrite IH by assumption;
      cbn [onRawChildEvent rawOut rawErr rawSettled];
      now rewrite ?app_nil_l, ?app_assoc.
Qed.

(** What [runFormatter] resolves with when the process only writes output
    and then exits with status 0: the chunks of standard output, each
    decoded on its own, one after the other; the input if that is empty. *)
Lemma runFormatterBytes_exit0 (input : JsString) (datas : list RawChildEvent) :
  forallb isRawData datas = true ->
  runFormatterBytes (datas ++ [RawClose (Some 0%Z)]) input
  = Some (RawResolved
            (rawOrElse
               (flat_map (fun ev => match ev with
                                    | RawStdout d => bufferToString d
                                    | _ => []
                                    end) datas)
               input)).
Proof.
  intros Hall; unfold runFormatterBytes.
  rewrite fold_left_app, (fold_raw_data input datas Hall); reflexivity.
Qed.

(** C6, at the failing input: a formatter writes the three bytes of "é"
    and a line break and exits with status 0.  When the bytes come in one
    chunk, [runFormatter] resolves with that text.  When the two bytes of
    "é" come in different chunks, each chunk is decoded on its own and
    [runFormatter] resolves with U+FFFD U+FFFD and the line break, which is
    not the text the process wrote. *)
Theorem split_character_not_verbatim :
  stdoutBytes splitChunks = [Byte.xc3; Byte.xa9; Byte.x0a]
  /\ stdoutBytes oneChunk = stdoutBytes splitChunks
  /\ bufferToString (stdoutBytes splitChunks) = [233%N; 10%N]
  /\ runFormatterBytes oneChunk (unitsOf "x") = Some (RawResolved [233%N; 10%N])
  /\ runFormatterBytes splitChunks (unitsOf "x")
     = Some (RawResolved [65533%N; 65533%N; 10%N]).
Proof. repeat split. Qed.


(** ** The tag of an opening line, by its shape *)

Lemma trimEnd_spaces (a sp : string) :
  allChars Str.isSpace sp = true -> Str.trimEnd (a ++ sp) = Str.trimEnd a.
Proof.
  intros Hsp; rewrite trimEnd_app.
  apply trimEnd_empty in Hsp; now rewrite Hsp.
Qed.

Lemma backticks_no_space (ticks : string) :
  allChars isBacktick ticks = true ->
  allChars (fun c => negb (Str.isSpace c)) ticks = true.
Proof.
  apply allChars_weaken; intros c Hc.
  apply Ascii.eqb_eq in Hc; now subst.
Qed.

Lemma trimStart_backticks (ticks s : string) :
  allChars isBacktick ticks = true -> 3 <= String.length ticks ->
  Str.trimStart (ticks ++ s) = ticks ++ s.
Proof.
  destruct ticks as [|c r]; [simpl; lia|]; intros H _.
  simpl in H; apply andb_true_iff in H as [Hc _].
  apply Ascii.eqb_eq in Hc; now subst.
Qed.

Lemma space_not_backtick (c : ascii) :
  Str.isSpace c = true -> isBacktick c = false.
Proof.
  intros Hc; unfold isBacktick.
  destruct (Ascii.eqb_spec c "`"); [subst; discriminate | trivial].
Qed.

Lemma trimEnd_head_kept (c : ascii) (r : string) :
  Str.isSpace c = false -> exists r', Str.trimEnd (String c r) = String c r'.
Proof.
  intros Hc; cbn [Str.trimEnd].
  destruct (Str.trimEnd r); [rewrite Hc|]; eauto.
Qed.

(** Backticks, white space, and then nothing or an opening brace: no tag. *)
Lemma extractFenceLang_untagged (ticks sp rest : string) :
  allChars isBacktick ticks = true -> 3 <= String.length ticks ->
  allChars Str.isSpace sp = true ->
  (rest = "" \/ exists r, rest = String "{" r) ->
  extractFenceLang (ticks ++ sp ++ rest) = None.
Proof.
  intros Hticks Hlen Hsp Hrest.
  pose proof (backticks_no_space ticks Hticks) as Hns.
  unfold extractFenceLang, Str.trim.
  rewrite trimStart_backticks by assumption.
  destruct Hrest as [-> | (r & ->)].
  - rewrite append_empty_r, trimEnd_spaces, trimEnd_id by assumption.
    rewrite span_all by assumption.
    destruct (Nat.ltb_spec (String.length ticks) 3); [lia | reflexivity].
  - destruct (trimEnd_head_kept "{" r eq_refl) as (r' & Er).
    rewrite <- append_assoc, trimEnd_app, Er, append_assoc.
    rewrite (span_run isBacktick ticks (sp ++ String "{" r')); trivial.
    2:{ right; destruct sp as [|c sp'].
        - exists "{"%char, r'; split; reflexivity.
        - exists c, (sp' ++ String "{" r'); split; [reflexivity|].
          simpl in Hsp; apply andb_true_iff in Hsp as [Hc _].
          now apply space_not_backtick. }
    destruct (Nat.ltb_spec (String.length ticks) 3); [lia|].
    rewrite (span_run Str.isSpace sp (String "{" r')); trivial.
    right; exists "{"%char, r'; split; reflexivity.
Qed.

(** Backticks, white space, a run of tag characters and a rest that cannot
    continue the run: the tag is the run. *)
Lemma extractFenceLang_tagged (ticks sp tag rest : string) :
  allChars isBacktick ticks = true -> 3 <= String.length ticks ->
  allChars Str.isSpace sp = true ->
  tag <> "" -> allChars isTagChar tag = true ->
  (rest = "" \/ exists c r, rest = String c r /\ isTagChar c = false) ->
  extractFenceLang (ticks ++ sp ++ tag ++ rest) = Some tag.
Proof.
  intros Hticks Hlen Hsp Hne Htag Hrest.
  assert (Hns : allChars (fun c => negb (Str.isSpace c)) tag = true).
  { apply (allChars_weaken isTagChar); trivial.
    intros c Hc; apply isTagChar_inv in Hc as [-> _]; trivial. }
  assert (Htag1 : exists c r, tag = String c r /\ isTagChar c = true).
  { destruct tag as [|c r]; [contradiction|].
    simpl in Htag; apply andb_true_iff in Htag as [Hc _]; eauto. }
  set (rest' := Str.trimEnd rest).
  assert (Htrim : Str.trim (ticks ++ sp ++ tag ++ rest)
                  = ticks ++ sp ++ tag ++ rest').
  { unfold Str.trim; rewrite trimStart_backticks by assumption.
    rewrite <- !append_assoc, trimEnd_app; fold rest'.
    destruct rest' eqn:Er; [|reflexivity].
    rewrite append_empty_r, trimEnd_app, trimEnd_id by assumption.
    destruct tag; [contradiction | reflexivity]. }
  assert (Hrest' : rest' = ""
                   \/ exists c r, rest' = String c r /\ isTagChar c = false).
  { subst rest'; destruct Hrest as [-> | (c & r & -> & Hc)]; [now left|].
    destruct (trimEnd_head c r) as [-> | (r' & ->)]; eauto. }
  unfold extractFenceLang; rewrite Htrim.
  rewrite (span_run isBacktick ticks (sp ++ tag ++ rest')); trivial.
  2:{ right; destruct sp as [|c sp'].
      - destruct Htag1 as (c & r & -> & Hc).
        exists c, (r ++ rest'); split; [reflexivity|].
        now apply isTagChar_inv in Hc.
      - exists c, (sp' ++ tag ++ rest'); split; [reflexivity|].
        simpl in Hsp; apply andb_true_iff in Hsp as [Hc _].
        now apply space_not_backtick. }
  destruct (Nat.ltb_spec (String.length ticks) 3); [lia|].
  rewrite (span_run Str.isSpace sp (tag ++ rest')); trivial.
  2:{ right; destruct Htag1 as (c & r & -> & Hc).
      exists c, (r ++ rest'); split; [reflexivity|].
      now apply isTagChar_inv in Hc. }
  rewrite (span_run isTagChar tag rest'); trivial.
  destruct tag; [contradiction | reflexivity].
Qed.

(** C5, counterexample: the opening line [```py`x] carries, in the spec's
    words, the run of non-whitespace, non-brace characters [py`x], which is
    none of the four Python names; [findFenceInfo] stops the tag at the
    backtick, reports [lang = py], and the block is taken for Python. *)
Lemma tag_stops_at_backtick :
  lines (cursorAt backtickTag 1 0) = ["```py`x"; "x = 1"; "```"]
  /\ specFenceLang "```py`x" = Some "py`x"
  /\ isPythonLang (specFenceLang "```py`x") = false
  /\ findFenceInfo (cursorAt backtickTag 1 0) {| line := 1; ch := 0 |}
     = Some {| inside := true; lang := Some "py"; startLine := 0; endLine := 2 |}
  /\ isPythonLang (Some "py") = true.
Proof. repeat split. Qed.

(** C5, as amended: take a fence whose opening line, on line [o], is three
    or more backticks from the first column on, then white space (possibly
    none), then a run [tag] of characters other than white space, backtick
    and opening brace (possibly empty), then nothing or a rest that cannot
    continue the run; whose closing line, on line [c], starts with three
    backticks; and whose lines in between do not.  For a cursor on any
    line in between, [findFenceInfo] returns [inside = true],
    [startLine = o], [endLine = c] and [lang = tag], case kept, or [null]
    when the run is empty; and the block is taken for Python exactly when
    the lower-cased run is python, py, python3 or py3. *)
Theorem findFenceInfo_well_formed (ed : Editor) (pos : EditorPosition)
    (o c : Z) (ticks sp tag rest : string) :
  getLine ed o = Some (ticks ++ sp ++ tag ++ rest) ->
  allChars isBacktick ticks = true -> 3 <= String.length ticks ->
  allChars Str.isSpace sp = true ->
  allChars isTagChar tag = true ->
  (rest = "" \/ exists x r, rest = String x r /\ isTagChar x = false) ->
  (tag = "" -> rest = "" \/ exists r, rest = String "{" r) ->
  fenceLine ed c = true ->
  (forall k, (o < k < c)%Z -> fenceLine ed k = false) ->
  (o < line pos < c)%Z ->
  findFenceInfo ed pos
  = Some {| inside := true; lang := tagOrNull tag;
            startLine := o; endLine := c |}
  /\ (isPythonLang (tagOrNull tag) = true <->
      In (Str.toLowerCase tag) ["python"; "py"; "python3"; "py3"]).
Proof.
  intros Hlo Hticks Hlen Hsp Htag Hrest Hnotag Hfc Hmid Hpos.
  assert (Hlang : extractFenceLang (ticks ++ sp ++ tag ++ rest) = tagOrNull tag).
  { destruct tag as [|x t].
    - cbn [append tagOrNull]; apply extractFenceLang_untagged; auto.
    - apply extractFenceLang_tagged; trivial; discriminate. }
  split.
  - pose proof (getLine_range _ _ _ Hlo) as Ho.
    pose proof (fenceLine_range _ _ Hfc) as Hc.
    assert (Hfo : fenceLine ed o = true).
    { unfold fenceLine; rewrite Hlo; now apply backticks_fence. }
    assert (Hopen : openAt ed (line pos) o).
    { repeat split; try lia; trivial. intros k Hk; apply Hmid; lia. }
    assert (Hclose : closeAt ed o c) by (repeat split; trivial; lia).
    destruct (findFenceInfo_locates ed pos) as (fi & E & Hloc); [lia|].
    rewrite E, (locates_pair _ _ _ _ _ _ Hopen Hclose Hlo Hloc), Hlang.
    do 2 f_equal; apply inside_of_delimiters; lia.
  - rewrite isPythonLang_iff; split.
    + intros (t & Et & Hin). destruct tag; [discriminate|].
      now injection Et as <-.
    + intros Hin; exists tag; split; trivial.
      destruct tag; [|reflexivity].
      simpl in Hin; repeat (destruct Hin as [Hin | Hin]; [discriminate|]);
        contradiction.
Qed.

Lemma findFenceInfo_well_formed_witness :
  findFenceInfo (cursorAt ("``` PyThOn3 title" ++ nl ++ "x = 1" ++ nl ++ "```") 1 2)
    {| line := 1; ch := 2 |}
  = Some {| inside := true; lang := tagOrNull "PyThOn3";
            startLine := 0; endLine := 2 |}
  /\ (isPythonLang (tagOrNull "PyThOn3") = true <->
      In (Str.toLowerCase "PyThOn3") ["python"; "py"; "python3"; "py3"]).
Proof.
  apply (findFenceInfo_well_formed
           (cursorAt ("``` PyThOn3 title" ++ nl ++ "x = 1" ++ nl ++ "```") 1 2)
           {| line := 1; ch := 2 |} 0 2 "```" " " "PyThOn3" " title").
  - reflexivity.
  - reflexivity.
  - simpl; lia.
  - reflexivity.
  - reflexivity.
  - right; exists " "%char, "title"; split; reflexivity.
  - discriminate.
  - reflexivity.
  - intros k Hk; assert (k = 1%Z) as -> by lia; reflexivity.
  - simpl; lia.
Defined.

Example well_formed_ex :
  findFenceInfo (cursorAt ("``` PyThOn3 title" ++ nl ++ "x = 1" ++ nl ++ "```") 1 2)
    {| line := 1; ch := 2 |}
  = Some {| inside := true; lang := Some "PyThOn3"; startLine := 0; endLine := 2 |}
  /\ isPythonLang (Some "PyThOn3") = true
  /\ extractFenceLang "```" = None
  /\ extractFenceLang "```  {.python}" = None
  /\ extractFenceLang "```py}" = Some "py}".
Proof. repeat split. Qed.

(** ** The merge, selection by selection *)

Lemma posLeb_line (p q : EditorPosition) :
  posLeb p q = true -> (line p <= line q)%Z.
Proof.
  unfold posLeb; intros H; apply orb_true_iff in H as [H | H].
  - apply Z.ltb_lt in H; lia.
  - apply andb_true_iff in H as [H _]; apply Z.eqb_eq in H; lia.
Qed.

(** The selection does not start on a later line than it ends. *)
Lemma selection_lines (ed : Editor) :
  (line (getCursor ed From) <= line (getCursor ed To))%Z.
Proof.
  unfold getCursor; destruct (posLeb (anchor ed) (head ed)) eqn:E.
  - now apply posLeb_line.
  - now apply posLeb_line, posLeb_total.
Qed.

(** A slice of the block, counted from the block's start. *)
Lemma take_of_slice (a b c : nat) (s : string) :
  b <= c -> Str.take (b - a) (Str.slice a c s) = Str.slice a b s.
Proof.
  intros Hbc; unfold Str.slice; apply take_take; lia.
Qed.

Lemma drop_of_slice (a b c : nat) (s : string) :
  a <= b -> Str.drop (b - a) (Str.slice a c s) = Str.slice b c s.
Proof.
  intros Hab; unfold Str.slice.
  rewrite drop_take, drop_drop; f_equal; [lia | f_equal; lia].
Qed.

(** The text of one line with its line break, between the starts of that
    line and of the next. *)
Lemma slice_one_line (ed : Editor) (l : Z) (lo : string) :
  getLine ed l = Some lo -> (l + 1 < lineCount ed)%Z ->
  getRange ed {| line := l; ch := 0 |} {| line := l + 1; ch := 0 |} = lo ++ nl.
Proof.
  intros Hlo Hnext.
  pose proof (getLine_range _ _ _ Hlo) as Hl.
  unfold getLine in Hlo; unfold getRange, posToOffset, lineCount, lines in *.
  cbn [line ch]; change (Z.to_nat 0) with 0.
  destruct (Z.ltb_spec l 0); [lia|].
  destruct (Z.ltb_spec (l + 1) 0); [lia|].
  rewrite slice_lines by lia.
  replace (Z.to_nat (l + 1) - Z.to_nat l) with 1 by lia.
  pose proof (nth_error_skipn (Z.to_nat l) (Str.splitLines (value ed)) 0) as Hs.
  rewrite Nat.add_0_r, Hlo in Hs.
  destruct (skipn (Z.to_nat l) (Str.splitLines (value ed))) as [|x xs];
    [discriminate|].
  injection Hs as ->; cbn [firstn unlines].
  now rewrite append_empty_r.
Qed.

(** C2, as amended: for a fence with [startLine < endLine],
    - when the selection starts on a line before [endLine] and ends on a
      line after [startLine] (as it does whenever the cursor is inside the
      block), the merge is the block content up to the selection start
      (nothing, when the selection starts at or before the opening
      delimiter line), then the pasted text, then the block content from
      the selection end on (nothing, when the selection ends at or after
      the closing delimiter line): it holds no text of a delimiter line or
      from outside the block;
    - when the selection ends at or before the opening delimiter line, its
      end is not clamped: the merge is the pasted text, then the buffer
      text from the selection end to the block start, then the whole block
      content;
    - when the selection starts at or after the closing delimiter line, its
      start is not clamped: the merge is the whole block content, then the
      buffer text from the block end to the selection start, then the
      pasted text;
    - and the buffer text from a selection end above the opening delimiter
      line to the block start ends with that whole line and its line
      break. *)
Theorem mergePasteIntoBlock_clamped (ed : Editor) (info : FenceInfo)
    (pasted : string) :
  (startLine info < endLine info)%Z ->
  let block := getBlockText ed info in
  let selFrom := getCursor ed From in
  let selTo := getCursor ed To in
  let start := posToOffset ed (blockStart info) in
  ((line selFrom < endLine info)%Z -> (startLine info < line selTo)%Z ->
   mergePasteIntoBlock ed info pasted
   = (if (line selFrom <=? startLine info)%Z then ""
      else Str.take (posToOffset ed selFrom - start) block)
     ++ pasted
     ++ (if (endLine info <=? line selTo)%Z then ""
         else Str.drop (posToOffset ed selTo - start) block))
  /\ ((line selTo <= startLine info)%Z ->
      mergePasteIntoBlock ed info pasted
      = pasted ++ getRange ed selTo (blockStart info) ++ block)
  /\ ((endLine info <= line selFrom)%Z ->
      mergePasteIntoBlock ed info pasted
      = block ++ getRange ed (blockEnd info) selFrom ++ pasted)
  /\ (forall lo,
        (line selTo < startLine info)%Z ->
        (startLine info + 1 < lineCount ed)%Z ->
        getLine ed (startLine info) = Some lo ->
        exists pre, getRange ed selTo (blockStart info) = pre ++ lo ++ nl).
Proof.
  intros Hlt block selFrom selTo start.
  pose proof (selection_lines ed) as Hsel; fold selFrom selTo in Hsel.
  pose proof (block_offsets ed info Hlt) as Hblock; fold start in Hblock.
  subst block; unfold mergePasteIntoBlock, safeFrom, safeTo, getBlockText, getRange.
  fold selFrom selTo start.
  repeat split.
  - (* the selection meets the block's lines *)
    intros Hfrom Hto.
    assert (Hf : posToOffset ed selFrom <= posToOffset ed (blockEnd info))
      by (apply posToOffset_line_lt; [assumption | reflexivity]).
    assert (Ht : start <= posToOffset ed selTo)
      by (apply posToOffset_col0_le; cbn [blockStart line ch]; lia).
    f_equal; [|f_equal].
    + destruct (Z.leb_spec (line selFrom) (startLine info)).
      * apply slice_empty.
      * symmetry; now apply take_of_slice.
    + destruct (Z.geb_spec (line selTo) (endLine info));
        destruct (Z.leb_spec (endLine info) (line selTo)); try lia.
      * apply slice_empty.
      * symmetry; now apply drop_of_slice.
  - (* the selection ends at or before the opening delimiter line *)
    intros Hto.
    destruct (Z.leb_spec (line selFrom) (startLine info)); [|lia].
    destruct (Z.geb_spec (line selTo) (endLine info)); [lia|].
    rewrite slice_empty; cbn [append]; f_equal.
    symmetry; apply slice_slice; [|assumption].
    apply posToOffset_line_lt; [cbn [blockStart line]; lia | reflexivity].
  - (* the selection starts at or after the closing delimiter line *)
    intros Hfrom.
    destruct (Z.leb_spec (line selFrom) (startLine info)); [lia|].
    destruct (Z.geb_spec (line selTo) (endLine info)); [|lia].
    rewrite slice_empty, append_empty_r, <- append_assoc; f_equal.
    symmetry; apply slice_slice; [assumption|].
    apply posToOffset_col0_le; cbn [blockEnd line ch]; lia.
  - (* the opening delimiter line is part of what lies before the block *)
    intros lo Hto Hnext Hlo.
    exists (getRange ed selTo {| line := startLine info; ch := 0 |}).
    rewrite <- (slice_one_line ed (startLine info) lo Hlo Hnext).
    unfold getRange; fold (blockStart info); fold start.
    symmetry; apply slice_slice.
    + apply posToOffset_line_lt; [assumption | reflexivity].
    + apply posToOffset_col0_le; cbn [blockStart line ch]; lia.
Qed.

Lemma mergePasteIntoBlock_clamped_witness :
  let ed := select proseThenFence {| line := 0; ch := 1 |} {| line := 2; ch := 2 |} in
  let info := {| inside := true; lang := Some "python";
                 startLine := 1; endLine := 3 |} in
  let block := getBlockText ed info in
  let selFrom := getCursor ed From in
  let selTo := getCursor ed To in
  let start := posToOffset ed (blockStart info) in
  ((line selFrom < endLine info)%Z -> (startLine info < line selTo)%Z ->
   mergePasteIntoBlock ed info "P"
   = (if (line selFrom <=? startLine info)%Z then ""
      else Str.take (posToOffset ed selFrom - start) block)
     ++ "P"
     ++ (if (endLine info <=? line selTo)%Z then ""
         else Str.drop (posToOffset ed selTo - start) block))
  /\ ((line selTo <= startLine info)%Z ->
      mergePasteIntoBlock ed info "P"
      = "P" ++ getRange ed selTo (blockStart info) ++ block)
  /\ ((endLine info <= line selFrom)%Z ->
      mergePasteIntoBlock ed info "P"
      = block ++ getRange ed (blockEnd info) selFrom ++ "P")
  /\ (forall lo,
        (line selTo < startLine info)%Z ->
        (startLine info + 1 < lineCount ed)%Z ->
        getLine ed (startLine info) = Some lo ->
        exists pre, getRange ed selTo (blockStart info) = pre ++ lo ++ nl).
Proof.
  apply (mergePasteIntoBlock_clamped
           (select proseThenFence {| line := 0; ch := 1 |} {| line := 2; ch := 2 |})
           {| inside := true; lang := Some "python";
              startLine := 1; endLine := 3 |} "P").
  vm_compute; reflexivity.
Defined.

Example merge_cases_ex :
  let info := {| inside := true; lang := Some "python";
                 startLine := 1; endLine := 3 |} in
  mergePasteIntoBlock
    (select proseThenFence {| line := 2; ch := 1 |} {| line := 2; ch := 3 |})
    info "P" = "xP 1" ++ nl
  /\ mergePasteIntoBlock
       (select proseThenFence {| line := 0; ch := 0 |} {| line := 0; ch := 1 |})
       info "P" = "P" ++ ("bc" ++ nl ++ "```python" ++ nl) ++ ("x = 1" ++ nl)
  /\ mergePasteIntoBlock
       (select proseThenFence {| line := 3; ch := 1 |} {| line := 3; ch := 2 |})
       info "P" = ("x = 1" ++ nl) ++ "`" ++ "P".
Proof. repeat split. Qed.
